(** * MusicGenreClassification: dataset / model lifecycle

    A shallow embedding of

      - [src/utils/file_utils.py]                       (class [FileUtil])
      - [backend/src/music_genre_calssification.py]     (class
        [MusicGenreClassification] and [main])

    Python values live in an object store, the file system is a finite map
    from path strings to nodes, exceptions are an explicit outcome, and every
    call that leaves the two files (pandas, the feature extractor, the
    classifier, [DataProcess]) is logged in a trace. *)

From Stdlib Require Import ZArith QArith Qround Lia Lqa Ascii String List.
From Stdlib Require Import DecimalString DecimalPos DecimalN DecimalZ Permutation.
From stdpp Require Import base option list gmap strings.

Local Open Scope stdpp_scope.

(* ===================================================================== *)
(** * Python: exceptions and outcomes                                    *)
(* ===================================================================== *)

Module Py.

(** The exception classes that can reach the code under study.
    [ConfigError], [SchemaError], [NotFoundError] and [IOError] are the
    error taxonomy of the data processor; [CollaboratorError] is
    whatever else a collaborator raises. *)
Inductive exn : Type :=
| AssertionError (msg : string)
| OSError
| FileNotFoundError
| IsADirectoryError
| NotADirectoryError
| UnicodeDecodeError
| AttributeError
| EmptyDataError
| ParserError
| ConfigError
| SchemaError
| NotFoundError
| IOError
| CollaboratorError (code : nat).

Inductive outcome (A : Type) : Type :=
| Return (a : A)
| Raise (e : exn).
Arguments Return {A} a.
Arguments Raise {A} e.

Definition raised {A} (o : outcome A) : Prop :=
  match o with Raise _ => True | Return _ => False end.

Definition obind {A B} (o : outcome A) (k : A -> outcome B) : outcome B :=
  match o with
  | Return a => k a
  | Raise e => Raise e
  end.

(** [for i, x in enumerate(xs)] *)
Definition enumerate {A} (xs : list A) : list (nat * A) :=
  imap (fun i x => (i, x)) xs.

(** A [for] loop whose body only rebinds local variables: the loop state
    is threaded from left to right. *)
Definition for_each {S A} (xs : list A) (body : S -> A -> S) (s0 : S) : S :=
  fold_left body xs s0.

End Py.

Export Py.

(* ===================================================================== *)
(** * os / os.path / open                                                 *)
(* ===================================================================== *)

Module OS.

Definition LF : ascii := ascii_of_nat 10.
Definition CR : ascii := ascii_of_nat 13.
Definition SLASH : ascii := ascii_of_nat 47.

(** A node of the file system: a file that holds UTF-8 text, with the
    text it decodes to; a directory, with the names of its entries as
    [os.listdir] reports them (the order is the file system's own:
    nothing is proved from it); a file whose bytes are not UTF-8 text. *)
Inductive node : Type :=
| File (content : string)
| Dir (entries : list string)
| Blob.

(** Paths are compared as strings: two spellings of one path ([..],
    repeated or trailing separators) are two keys of the map. *)
Abbreviation filesystem := (gmap string node).

Definition isfile (fs : filesystem) (path : string) : bool :=
  match fs !! path with
  | Some (File _) | Some Blob => true
  | _ => false
  end.

(** [os.path.isdir] on the path as it is spelled: the node is looked up
    under that spelling, so a directory asked for with a trailing
    separator is not found unless the map has that key. *)
Definition isdir (fs : filesystem) (path : string) : bool :=
  match fs !! path with
  | Some (Dir _) => true
  | _ => false
  end.

Definition listdir (fs : filesystem) (path : string) : outcome (list string) :=
  match fs !! path with
  | Some (Dir entries) => Return entries
  | Some (File _) | Some Blob => Raise NotADirectoryError
  | None => Raise FileNotFoundError
  end.

Fixpoint endswith_char (c : ascii) (s : string) : bool :=
  match s with
  | EmptyString => false
  | String a EmptyString => Ascii.eqb a c
  | String _ s' => endswith_char c s'
  end.

Definition startswith_char (c : ascii) (s : string) : bool :=
  match s with
  | String a _ => Ascii.eqb a c
  | EmptyString => false
  end.

(** [posixpath.join(a, b)] *)
Definition join (a b : string) : string :=
  if startswith_char SLASH b then b
  else if String.eqb a EmptyString || endswith_char SLASH a then a +:+ b
  else a +:+ String SLASH b.

(** Lines of a text, universal newlines ([\n], [\r\n] and [\r] all end a
    line); the terminators are dropped.  [cur] is the line being read. *)
Fixpoint lines_from (cur : string) (s : string) : list string :=
  match s with
  | EmptyString =>
      match cur with EmptyString => [] | _ => [cur] end
  | String c rest =>
      if Ascii.eqb c LF then cur :: lines_from EmptyString rest
      else if Ascii.eqb c CR then
        match rest with
        | String c' rest' =>
            if Ascii.eqb c' LF then cur :: lines_from EmptyString rest'
            else cur :: lines_from EmptyString rest
        | EmptyString => cur :: lines_from EmptyString rest
        end
      else lines_from (cur +:+ String c EmptyString) rest
  end.

Definition text_lines (s : string) : list string := lines_from EmptyString s.

(** The three line terminators that a file opened in text mode reads as
    the end of a line. *)
Inductive newline : Type := Unix | Windows | OldMac.

Definition terminator (nl : newline) : string :=
  match nl with
  | Unix => String LF EmptyString
  | Windows => String CR (String LF EmptyString)
  | OldMac => String CR EmptyString
  end.

(** The text of a file that holds the lines [ls], each followed by the
    terminator, and then [last], which has no terminator after it. *)
Definition file_text (nl : newline) (ls : list string) (last : string) : string :=
  foldr (fun l rest => l +:+ terminator nl +:+ rest) last ls.

Fixpoint contains_char (c : ascii) (s : string) : bool :=
  match s with
  | EmptyString => false
  | String a s' => Ascii.eqb a c || contains_char c s'
  end.

(** [p[:i], p[i:]] for [i = p.rfind('/') + 1] *)
Fixpoint split_raw (p : string) : string * string :=
  match p with
  | EmptyString => (EmptyString, EmptyString)
  | String c rest =>
      if contains_char SLASH rest then
        let '(h, t) := split_raw rest in (String c h, t)
      else if Ascii.eqb c SLASH then (String c EmptyString, rest)
      else (EmptyString, String c rest)
  end.

(** [s.rstrip('/')] *)
Fixpoint rstrip_slash (s : string) : string :=
  match s with
  | EmptyString => EmptyString
  | String c rest =>
      match rstrip_slash rest with
      | EmptyString =>
          if Ascii.eqb c SLASH then EmptyString else String c EmptyString
      | r => String c r
      end
  end.

(** [posixpath.split(p)]: the directory part and the last component; a
    head made of slashes only is kept as it is. *)
Definition split (p : string) : string * string :=
  let '(h, t) := split_raw p in
  match rstrip_slash h with
  | EmptyString => (h, t)
  | h' => (h', t)
  end.

(** The directory a path names, as the file system names it: without
    trailing separators, unless the path is made of separators only
    (the head of [posixpath.split]). *)
Definition normdir (p : string) : string :=
  match rstrip_slash p with
  | EmptyString => p
  | d => d
  end.

(** A text file written at [path] ([to_csv] on a path): the file is
    created or replaced, inside a directory that exists; the directory
    lists the file.  Where a new name stands in the listing is the file
    system's choice: it is put last here, and only what a listing
    holds, not its order, is stated of it.  Without that directory the
    write raises [OSError] (or, with an older pandas, one of its
    subclasses). *)
Definition write_text (path text : string) (fs : filesystem)
    : outcome unit * filesystem :=
  match fs !! path with
  | Some (Dir _) => (Raise IsADirectoryError, fs)
  | _ =>
      let '(parent, name) := split path in
      match fs !! parent with
      | Some (Dir entries) =>
          let entries' :=
            if bool_decide (name ∈ entries) then entries
            else entries ++ [name] in
          (Return tt, <[path := File text]> (<[parent := Dir entries']> fs))
      | _ => (Raise OSError, fs)
      end
  end.

(** A new, empty directory at [path], listed in its parent when the
    parent is a directory of the map. *)
Definition mkdir (path : string) (fs : filesystem) : filesystem :=
  let '(parent, name) := split path in
  let fs' :=
    match fs !! parent with
    | Some (Dir entries) => <[parent := Dir (entries ++ [name])]> fs
    | _ => fs
    end in
  <[path := Dir []]> fs'.

(** [open(path, "r", encoding='utf8')] followed by reading the file
    object: the decoded text, or [UnicodeDecodeError] when the bytes of
    the file are not UTF-8. *)
Definition open_read (fs : filesystem) (path : string) : outcome string :=
  match fs !! path with
  | Some (File content) => Return content
  | Some Blob => Raise UnicodeDecodeError
  | Some (Dir _) => Raise IsADirectoryError
  | None => Raise FileNotFoundError
  end.

End OS.

(* ===================================================================== *)
(** * Snapshot naming: [FileUtil.get_time]                                *)
(* ===================================================================== *)

Module Clock.

(** A reading of the wall clock, as [datetime.datetime.now()] reports it. *)
Record datetime : Type := mk_datetime {
  year : N; month : N; day : N;
  hour : N; minute : N; second : N;
  microsecond : N
}.

#[global] Instance datetime_eq_dec : EqDecision datetime.
Proof. solve_decision. Defined.

(** Python's value range of a [datetime] (the length of the month is not
    needed below). *)
Definition well_formed (d : datetime) : Prop :=
  (1 <= year d <= 9999 /\ 1 <= month d <= 12 /\ 1 <= day d <= 31 /\
   hour d <= 23 /\ minute d <= 59 /\ second d <= 59 /\
   microsecond d <= 999999)%N.

(** Chronological order: [datetime.__lt__] compares field by field. *)
Definition lex (c : comparison) (k : comparison) : comparison :=
  match c with Eq => k | Lt => Lt | Gt => Gt end.

Definition compare (a b : datetime) : comparison :=
  lex (year a ?= year b)%N
 (lex (month a ?= month b)%N
 (lex (day a ?= day b)%N
 (lex (hour a ?= hour b)%N
 (lex (minute a ?= minute b)%N
 (lex (second a ?= second b)%N
      (microsecond a ?= microsecond b)%N))))).

Definition digit (n : N) : ascii := ascii_of_N (48 + n mod 10).

(** [n] written with exactly [width] decimal digits, most significant
    first (the [%0<width>d] of a value below [10 ^ width]). *)
Fixpoint zero_padded (width : nat) (n : N) : string :=
  match width with
  | O => EmptyString
  | S w =>
      String (digit (n / 10 ^ N.of_nat w)) (zero_padded w (n mod 10 ^ N.of_nat w))
  end.

(** The shape of the snapshot directories named in [main]:
    [2019-01-23_23:19:56.871484]. *)
Definition stamp (d : datetime) : string :=
  zero_padded 4 (year d) +:+ "-" +:+ zero_padded 2 (month d) +:+ "-" +:+
  zero_padded 2 (day d) +:+ "_" +:+ zero_padded 2 (hour d) +:+ ":" +:+
  zero_padded 2 (minute d) +:+ ":" +:+ zero_padded 2 (second d) +:+ "." +:+
  zero_padded 6 (microsecond d).

(** What the generator remembers during one run: the readings it has
    answered so far, the latest first. *)
Record namer : Type := mk_namer {
  issued : list datetime
}.

Definition fresh_namer : namer := mk_namer [].

(** The counter that follows the reading in the identifier of a request
    made when the same reading has been answered [k] times before: [k]
    marks, so that the first request gets the bare reading and a later
    request sorts after an earlier one however many there are. *)
Fixpoint suffix (k : nat) : string :=
  match k with
  | O => EmptyString
  | S k' => String "+" (suffix k')
  end.

Definition id_of (now : datetime) (k : nat) : string := stamp now +:+ suffix k.

(** How many times the reading [now] has been answered. *)
Definition answered (now : datetime) (readings : list datetime) : nat :=
  length (filter (fun t => t = now) readings).

(** Modelled from the spec: [FileUtil.get_time] is called by
    [make_dataset] and [training] but its body is not among the sources.
    Section 4.3: the identifier is the wall-clock reading at sub-second
    resolution, unique per invocation within a run: a request within a
    clock tick that was answered before gets a monotonic counter
    appended. *)
Definition new_snapshot_id (now : datetime) (st : namer) : string * namer :=
  (id_of now (answered now (issued st)), mk_namer (now :: issued st)).

(** The identifiers one run obtains from the successive clock readings
    [ticks]. *)
Fixpoint run_ids (st : namer) (ticks : list datetime) : list string :=
  match ticks with
  | [] => []
  | now :: rest =>
      let '(id, st') := new_snapshot_id now st in
      id :: run_ids st' rest
  end.

End Clock.

(* ===================================================================== *)
(** * pandas: frames, series and delimited text                          *)
(* ===================================================================== *)

Module Pandas.

Import OS.

(** How pandas writes one value of a table to text, how [read_csv]
    types a column from the fields it holds, and what it reads from a
    field of a column of that type. *)
Class CellCodec (cell : Type) : Type := {
  cell_to_text : cell -> string;
  column_kind : Type;
  infer_kind : list string -> column_kind;
  cell_of_text : column_kind -> string -> cell
}.

Definition COMMA : ascii := ascii_of_nat 44.
Definition QUOTE : ascii := ascii_of_nat 34.

(** ** Characters and fields *)

(** [isspace] of the C locale: the space and the controls 9 to 13. *)
Definition is_space (c : ascii) : bool :=
  let n := nat_of_ascii c in
  Nat.eqb n 32 || (Nat.leb 9 n && Nat.leb n 13).

Definition is_digit (c : ascii) : bool :=
  let n := nat_of_ascii c in Nat.leb 48 n && Nat.leb n 57.

Definition is_upper (c : ascii) : bool :=
  let n := nat_of_ascii c in Nat.leb 65 n && Nat.leb n 90.

Definition is_lower (c : ascii) : bool :=
  let n := nat_of_ascii c in Nat.leb 97 n && Nat.leb n 122.

Definition is_alpha (c : ascii) : bool := is_upper c || is_lower c.

Definition is_word_char (c : ascii) : bool :=
  is_alpha c || is_digit c || Ascii.eqb c "_".

(** The characters of the decimal text of an integer. *)
Definition int_char (c : ascii) : bool := is_digit c || Ascii.eqb c "-".

Fixpoint all_chars (p : ascii -> bool) (s : string) : bool :=
  match s with
  | EmptyString => true
  | String c r => p c && all_chars p r
  end.

Fixpoint lstrip (s : string) : string :=
  match s with
  | String c r => if is_space c then lstrip r else s
  | EmptyString => EmptyString
  end.

Fixpoint rstrip (s : string) : string :=
  match s with
  | EmptyString => EmptyString
  | String c r =>
      match rstrip r with
      | EmptyString => if is_space c then EmptyString else String c EmptyString
      | t => String c t
      end
  end.

Definition strip (s : string) : string := rstrip (lstrip s).

Definition lower_char (c : ascii) : ascii :=
  if is_upper c then ascii_of_nat (nat_of_ascii c + 32) else c.

Fixpoint lowercase (s : string) : string :=
  match s with
  | EmptyString => EmptyString
  | String c r => String (lower_char c) (lowercase r)
  end.

(** The integer a field denotes for the parser ([str_to_int64]): blanks
    around it are skipped, one sign is allowed, at least one digit is
    required and nothing else may follow. *)
Definition parse_int (s : string) : option Z :=
  match strip s with
  | String c r =>
      if Ascii.eqb c "+"
      then option_map Z.of_uint (NilZero.uint_of_string r)
      else option_map Z.of_int (NilZero.int_of_string (String c r))
  | EmptyString => None
  end.

Definition int_like (s : string) : bool :=
  match parse_int s with Some _ => true | None => false end.

Definition in_int64 (z : Z) : bool :=
  ((- 2 ^ 63 <=? z) && (z <? 2 ^ 63))%Z.

Definition in_uint64 (z : Z) : bool :=
  ((0 <=? z) && (z <? 2 ^ 64))%Z.

Fixpoint span_digits (s : string) : nat * string :=
  match s with
  | String c r =>
      if is_digit c then let '(n, t) := span_digits r in (S n, t) else (O, s)
  | EmptyString => (O, EmptyString)
  end.

Definition drop_sign (s : string) : string :=
  match s with
  | String c r => if Ascii.eqb c "+" || Ascii.eqb c "-" then r else s
  | EmptyString => EmptyString
  end.

Definition exponent_shape (s : string) : bool :=
  match s with
  | EmptyString => true
  | String c r =>
      (Ascii.eqb c "e" || Ascii.eqb c "E") &&
      (let '(n, t) := span_digits (drop_sign r) in
       negb (Nat.eqb n 0) && String.eqb t EmptyString)
  end.

Definition decimal_shape (s : string) : bool :=
  let '(n1, r1) := span_digits s in
  let '(n2, r2) :=
    match r1 with
    | String c r => if Ascii.eqb c "." then span_digits r else (O, r1)
    | EmptyString => (O, r1)
    end in
  negb (Nat.eqb (n1 + n2) 0) && exponent_shape r2.

(** The fields the parser reads as a floating-point number: a decimal
    with an optional fraction and exponent, or an infinity.  Which
    number it is, is not modelled. *)
Definition float_like (s : string) : bool :=
  let t := drop_sign (strip s) in
  bool_decide (lowercase t ∈ ["inf"; "infinity"]) || decimal_shape t.

(** The fields [read_csv] reads as a missing value (its default
    [na_values]). *)
Definition na_values : list string :=
  [EmptyString; "#N/A"; "#N/A N/A"; "#NA"; "-1.#IND"; "-1.#QNAN"; "-NaN";
   "-nan"; "1.#IND"; "1.#QNAN"; "<NA>"; "N/A"; "NA"; "NULL"; "NaN"; "None";
   "n/a"; "nan"; "null"].

Definition is_na (s : string) : bool := bool_decide (s ∈ na_values).

Definition true_values : list string := ["True"; "TRUE"; "true"].
Definition false_values : list string := ["False"; "FALSE"; "false"].

Definition bool_like (s : string) : bool :=
  bool_decide (s ∈ true_values ++ false_values).

(** ** Values *)

(** The values of a table: an integer, a boolean, text, the missing
    value, or a floating-point number.  A floating-point number is kept
    as the field it was read from: its value, and with it the text
    pandas would write for it, is outside the model. *)
Inductive scalar : Type :=
| SInt (z : Z)
| SBool (b : bool)
| SText (s : string)
| SNaN
| SFloat (field : string).

Definition scalar_to_text (v : scalar) : string :=
  match v with
  | SInt z => NilZero.string_of_int (Z.to_int z)
  | SBool true => "True"
  | SBool false => "False"
  | SText s => s
  | SNaN => EmptyString
  | SFloat field => field
  end.

(** The types [read_csv] gives a column, in the order it tries them. *)
Inductive kind : Type := KInt | KFloat | KBool | KText.

(** One type per column, from all the fields of the column: integers if
    every field is an integer and all fit one 64-bit type; else
    floating point if every field is a number or missing; else boolean
    if every field is a boolean word or missing; else text. *)
Definition scalar_kind (fields : list string) : kind :=
  if forallb (fun f => negb (is_na f) && int_like f) fields
     && (forallb in_int64 (omap parse_int fields)
         || forallb in_uint64 (omap parse_int fields))
  then KInt
  else if forallb (fun f => is_na f || float_like f) fields then KFloat
  else if forallb (fun f => is_na f || bool_like f) fields then KBool
  else KText.

Definition scalar_of_text (k : kind) (s : string) : scalar :=
  match k with
  | KInt => match parse_int s with Some z => SInt z | None => SNaN end
  | KFloat => if is_na s then SNaN else SFloat s
  | KBool => if is_na s then SNaN else SBool (bool_decide (s ∈ true_values))
  | KText => if is_na s then SNaN else SText s
  end.

#[global] Instance scalar_codec : CellCodec scalar :=
  {| cell_to_text := scalar_to_text;
     column_kind := kind;
     infer_kind := scalar_kind;
     cell_of_text := scalar_of_text |}.

(** ** Delimited text *)

(** A field that [to_csv] writes as it is (it needs no quoting) and that
    is not blank. *)
Definition plain (s : string) : bool :=
  negb (String.eqb s EmptyString) &&
  negb (contains_char COMMA s) && negb (contains_char LF s) &&
  negb (contains_char CR s) && negb (contains_char QUOTE s).

Definition join_fields (fields : list string) : string :=
  String.concat (String COMMA EmptyString) fields.

Definition csv_line (fields : list string) : string :=
  join_fields fields +:+ String LF EmptyString.

(** The fields of one line; [cur] is the field being read.  Quoted
    fields are not modelled. *)
Fixpoint fields_from (cur : string) (s : string) : list string :=
  match s with
  | EmptyString => [cur]
  | String c rest =>
      if Ascii.eqb c COMMA then cur :: fields_from EmptyString rest
      else fields_from (cur +:+ String c EmptyString) rest
  end.

Definition split_fields (line : string) : list string :=
  fields_from EmptyString line.

Fixpoint omapM {A B} (f : A -> outcome B) (l : list A) : outcome (list B) :=
  match l with
  | [] => Return []
  | x :: l' =>
      obind (f x) (fun y => obind (omapM f l') (fun ys => Return (y :: ys)))
  end.

(** The [j]-th entries of the rows. *)
Definition column {A} (j : nat) (rows : list (list A)) : list A :=
  omap (fun r => r !! j) rows.

(** The fields of a data line of a table of [width] columns: a short
    line is filled up with missing values, a line with more fields than
    the header is an error. *)
Definition pad_row (width : nat) (line : string) : outcome (list string) :=
  let fields := split_fields line in
  if Nat.ltb width (length fields) then Raise ParserError
  else Return (fields ++ replicate (width - length fields) EmptyString).

Section Frames.

Context {cell : Type} {codec : CellCodec cell}.

(** A frame: the column names and the rows, each row with its index
    label (the identity of the row). *)
Record DataFrame : Type := mk_frame {
  df_columns : list string;
  df_rows : list (Z * list cell)
}.

Record Series : Type := mk_series {
  s_name : string;
  s_items : list (Z * cell)
}.

(** [df.index], [df.values], [len(df)] *)
Definition df_index (df : DataFrame) : list Z := (df_rows df).*1.
Definition df_values (df : DataFrame) : list (list cell) := (df_rows df).*2.
Definition df_len (df : DataFrame) : nat := length (df_rows df).

Definition s_index (s : Series) : list Z := (s_items s).*1.
Definition s_values (s : Series) : list cell := (s_items s).*2.

(** Every row has one value per column. *)
Definition rectangular (df : DataFrame) : Prop :=
  Forall (fun r => length r.2 = length (df_columns df)) (df_rows df).

(** [df.to_csv(path, index=False)]: a header line, then one line per
    row; the index is not written.  (Not modelled: the quotes that
    pandas puts around a field that holds a separator, a quote or a
    line terminator.) *)
Definition to_csv (df : DataFrame) : string :=
  foldr String.append EmptyString
    (csv_line (df_columns df) ::
     map (fun r => csv_line (map cell_to_text r.2)) (df_rows df)).

(** The same columns and values on a fresh range index
    ([reset_index(drop=True)]). *)
Definition reset_index (df : DataFrame) : DataFrame :=
  mk_frame (df_columns df)
           (imap (fun i r => (Z.of_nat i, r)) (df_values df)).

Definition reset_series_index (s : Series) : Series :=
  mk_series (s_name s) (imap (fun i c => (Z.of_nat i, c)) (s_values s)).

(** The rows of fields of a table of [width] columns, each field read
    as the type of its column asks. *)
Definition typed_rows (width : nat) (rows : list (list string))
    : list (list cell) :=
  let kinds := map (fun j => infer_kind (column j rows)) (seq 0 width) in
  map (zip_with cell_of_text kinds) rows.

(** [pd.read_csv] on the text of a file: blank lines are skipped, the
    first line is the header, every column gets one type, the rows
    get a fresh range index.  (Not modelled: quoted fields, the
    renaming of repeated or empty column names, and a first data line
    longer than the header, whose leading fields pandas takes as the
    index.) *)
Definition read_csv_text (text : string) : outcome DataFrame :=
  match filter (fun l => l <> EmptyString) (text_lines text) with
  | [] => Raise EmptyDataError
  | header :: body =>
      let columns := split_fields header in
      obind (omapM (pad_row (length columns)) body) (fun rows =>
        Return (mk_frame columns
                  (imap (fun i r => (Z.of_nat i, r))
                        (typed_rows (length columns) rows))))
  end.

(** A frame whose text form [read_csv] reads back value for value:
    at least one column, distinct plain column names, values that are
    written as plain fields, and columns that are typed, from these
    fields, so that every field is read as the value it was written
    from. *)
Definition csv_faithful (df : DataFrame) : Prop :=
  df_columns df <> [] /\
  NoDup (df_columns df) /\
  Forall (fun name => plain name = true) (df_columns df) /\
  rectangular df /\
  Forall (fun r => Forall (fun c => plain (cell_to_text c) = true) r.2)
         (df_rows df) /\
  typed_rows (length (df_columns df)) (map (map cell_to_text) (df_values df))
  = df_values df.

(** The objects the program passes around by reference. *)
Inductive obj : Type :=
| ODataFrame (df : DataFrame)
| OSeries (s : Series)
| OOpaque (tag : nat).

End Frames.

Arguments DataFrame : clear implicits.
Arguments Series : clear implicits.
Arguments obj : clear implicits.

(** ** Tables of integers and words *)

(** A word: letters, digits and underscores, not starting with a digit,
    and (in any capitalisation) none of the words pandas reads as a
    missing value, a boolean or an infinity. *)
Definition is_word (s : string) : bool :=
  match s with
  | String c _ => (is_alpha c || Ascii.eqb c "_") && all_chars is_word_char s
  | EmptyString => false
  end.

Definition reserved : list string :=
  ["na"; "null"; "nan"; "none"; "inf"; "infinity"; "true"; "false"].

Definition safe_word (s : string) : bool :=
  is_word s && negb (bool_decide (lowercase s ∈ reserved)).

(** What a column of such a table holds: 64-bit integers only, or
    words only. *)
Inductive column_type : Type := IntColumn | WordColumn.

Definition has_type (t : column_type) (c : scalar) : bool :=
  match t, c with
  | IntColumn, SInt z => in_int64 z
  | WordColumn, SText s => safe_word s
  | _, _ => false
  end.

Definition kind_of (t : column_type) : kind :=
  match t with IntColumn => KInt | WordColumn => KText end.

(** The table has distinct words as column names and every row holds,
    column by column, a value of the type of the column. *)
Definition typed_as (types : list column_type) (df : DataFrame scalar)
    : Prop :=
  df_columns df <> [] /\
  NoDup (df_columns df) /\
  Forall (fun name => safe_word name = true) (df_columns df) /\
  length types = length (df_columns df) /\
  Forall (fun r : Z * list scalar =>
            Forall2 (fun t c => has_type t c = true) types r.2)
         (df_rows df).

Definition storable (df : DataFrame scalar) : Prop :=
  exists types, typed_as types df.

End Pandas.

(* ===================================================================== *)
(** * The running program: world, traces and the collaborators           *)
(* ===================================================================== *)

Module Runtime.

Import OS Pandas Clock.

Abbreviation ref := positive.

Section World.

Context {cell : Type} {codec : CellCodec cell}.

(** Everything a call can read or change. *)
Record World : Type := mk_world {
  w_fs : filesystem;
  w_heap : gmap ref (obj cell);
  w_now : datetime;
  w_namer : namer;
  w_random : list nat
}.

Definition set_fs (fs : filesystem) (w : World) : World :=
  mk_world fs (w_heap w) (w_now w) (w_namer w) (w_random w).
Definition set_heap (h : gmap ref (obj cell)) (w : World) : World :=
  mk_world (w_fs w) h (w_now w) (w_namer w) (w_random w).
Definition set_namer (n : namer) (w : World) : World :=
  mk_world (w_fs w) (w_heap w) (w_now w) n (w_random w).
Definition set_random (r : list nat) (w : World) : World :=
  mk_world (w_fs w) (w_heap w) (w_now w) (w_namer w) r.

(** A call into code outside the two files: it returns or raises, and
    leaves a world behind in both cases. *)
Definition act (A : Type) : Type := World -> outcome A * World.

(** The calls that leave the two files. *)
Inductive callee : Type :=
| AFE_init | CLF_init | ConfigReader_init
| AFE_extract_dataset
| DP_normalize_dataframe | DP_factorize_lebel
| DP_make_dataset | DP_read_dataset
| CLF_training | CLF_save_model | CLF_load_model
| CLF_test | CLF_predict.

#[global] Instance callee_eq_dec : EqDecision callee.
Proof. solve_decision. Defined.

(** What an observer of a run sees: each outside call with the
    exception it raised, if any, and each [print]. *)
Inductive event : Type :=
| Called (c : callee) (failure : option exn)
| Printed (text : string)
| PrintedAccuracy (accuracy : Q).

Record result (A : Type) : Type := mk_result {
  trace : list event;
  out : outcome A;
  final : World
}.
Arguments mk_result {A} _ _ _.
Arguments trace {A} _.
Arguments out {A} _.
Arguments final {A} _.

Definition M (A : Type) : Type := World -> result A.

Definition ret {A} (a : A) : M A := fun w => mk_result [] (Return a) w.

(** Sequencing: an exception ends the computation, with the trace
    and the world reached so far. *)
Definition bind {A B} (m : M A) (k : A -> M B) : M B := fun w =>
  match m w with
  | mk_result t (Return a) w1 =>
      match k a w1 with
      | mk_result t' o w2 => mk_result (t ++ t') o w2
      end
  | mk_result t (Raise e) w1 => mk_result t (Raise e) w1
  end.

Definition failure_of {A} (o : outcome A) : option exn :=
  match o with Return _ => None | Raise e => Some e end.

Definition call {A} (c : callee) (f : act A) : M A := fun w =>
  let '(o, w') := f w in mk_result [Called c (failure_of o)] o w'.

(** The calls that obtain or prepare the feature table. *)
Definition prepares_data (c : callee) : bool :=
  match c with
  | AFE_extract_dataset | DP_normalize_dataframe | DP_factorize_lebel
  | DP_make_dataset | DP_read_dataset => true
  | _ => false
  end.

Fixpoint data_calls (t : list event) : list callee :=
  match t with
  | Called c _ :: t' =>
      if prepares_data c then c :: data_calls t' else data_calls t'
  | _ :: t' => data_calls t'
  | [] => []
  end.

(** The two ways a run gets its four structures. *)
Definition fresh_path : list callee :=
  [AFE_extract_dataset; DP_normalize_dataframe; DP_factorize_lebel;
   DP_make_dataset].

Definition reuse_path : list callee := [DP_read_dataset].

(** Every outside call of a trace, in the order of the calls. *)
Fixpoint calls (t : list event) : list callee :=
  match t with
  | Called c _ :: t' => c :: calls t'
  | _ :: t' => calls t'
  | [] => []
  end.

(** The messages of a trace, in the order they were printed. *)
Fixpoint printed (t : list event) : list string :=
  match t with
  | Printed text :: t' => text :: printed t'
  | _ :: t' => printed t'
  | [] => []
  end.

(** The constructors [__init__] runs, and the two ways a run gets its
    model. *)
Definition constructors : list callee :=
  [AFE_init; CLF_init; ConfigReader_init].

Definition train_path : list callee := [CLF_training; CLF_save_model].

Definition load_path : list callee := [CLF_load_model].

(** Code of the two files that changes the world without leaving them. *)
Definition local {A} (f : act A) : M A := fun w =>
  let '(o, w') := f w in mk_result [] o w'.

Definition print (text : string) : M unit := fun w =>
  mk_result [Printed text] (Return tt) w.

Definition print_accuracy (accuracy : Q) : M unit := fun w =>
  mk_result [PrintedAccuracy accuracy] (Return tt) w.

(** Allocation of a new object: it gets a reference that is not in
    use. *)
Definition new_object (o : obj cell) (w : World) : ref * World :=
  let l := fresh (dom (w_heap w)) in
  (l, set_heap (<[l := o]> (w_heap w)) w).

Definition alloc (o : obj cell) : act ref := fun w =>
  let '(l, w') := new_object o w in (Return l, w').

(** [dataframe.copy()]: a deep copy, a new object with the same
    columns and rows.  Opaque objects have no [copy]. *)
Definition copy (r : ref) : act ref := fun w =>
  match w_heap w !! r with
  | Some (ODataFrame df) => alloc (ODataFrame df) w
  | Some (OSeries s) => alloc (OSeries s) w
  | _ => (Raise AttributeError, w)
  end.

(** A call on a frame that may change the object it is given and may
    create objects, and touches no other object; what it returns is
    the object it was given or a new one. *)
Definition confined (f : ref -> string -> act ref) : Prop :=
  forall (r : ref) (label : string) (w w' : World) (o : outcome ref),
    f r label w = (o, w') ->
    (forall l, l <> r -> is_Some (w_heap w !! l) ->
               w_heap w' !! l = w_heap w !! l) /\
    (forall r', o = Return r' -> r' = r \/ w_heap w !! r' = None).

(** [ConfigReader(setting_file)], as far as the two files read it. *)
Record Config : Type := mk_config {
  label_name : string;
  test_rate : Q;
  shuffle : bool
}.

(** The code behind the imports of [music_genre_calssification.py]. *)
Record Collaborators : Type := mk_collaborators {
  audio_feature_extraction : string -> act ref;
  classifier : string -> act ref;
  config_reader : string -> act Config;
  extract_dataset : ref -> string -> string -> act ref;
  normalize_dataframe : ref -> string -> act ref;
  factorize_lebel : ref -> string -> act ref;
  dp_make_dataset :
    ref -> string -> Q -> bool -> string -> act (ref * ref * ref * ref);
  dp_read_dataset : string -> string -> act (ref * ref * ref * ref);
  clf_training : ref -> ref -> ref -> act ref;
  clf_save_model : ref -> ref -> string -> act unit;
  clf_load_model : ref -> string -> act ref;
  clf_test : ref -> ref -> ref -> ref -> act Q;
  clf_predict : ref -> ref -> ref -> act ref
}.

End World.

Arguments World : clear implicits.
Arguments act : clear implicits.
Arguments M : clear implicits.
Arguments result : clear implicits.
Arguments Collaborators : clear implicits.
Arguments mk_result {cell A} _ _ _.
Arguments trace {cell A} _.
Arguments out {cell A} _.
Arguments final {cell A} _.

Notation "'do' x <- m ; k" := (bind m (fun x => k))
  (at level 10, x name, m at level 100, k at level 200) : stdpp_scope.
Notation "'do' ' pat <- m ; k" :=
  (bind m (fun x => match x with pat => k end))
  (at level 10, pat pattern, m at level 100, k at level 200) : stdpp_scope.

End Runtime.

(* ===================================================================== *)
(** * src/utils/file_utils.py                                             *)
(* ===================================================================== *)

Module FileUtil.

Import OS Pandas Clock Runtime.

Definition is_invalid_file (fs : filesystem) (input_filename : string) : bool :=
  negb (isfile fs input_filename).

Definition is_valid_file (fs : filesystem) (input_filename : string) : bool :=
  negb (is_invalid_file fs input_filename).

Definition is_invalid_directory (fs : filesystem) (directory_path : string) : bool :=
  negb (isdir fs directory_path).

Definition is_valid_directory (fs : filesystem) (directory_path : string) : bool :=
  negb (is_invalid_directory fs directory_path).

(** [i = 0; for i, l in enumerate(input_file): pass; return i + 1] *)
Definition get_file_length (fs : filesystem) (i_filename : string) : outcome nat :=
  obind (open_read fs i_filename) (fun content =>
    let i := for_each (enumerate (text_lines content))
                      (fun _ '(i, l) => i) 0%nat in
    Return (i + 1)%nat).

(** [assert FileUtil.is_invalid_directory(directory_path) is False, ...]
    then [os.listdir].  [debug] is Python's [__debug__]: under [-O] the
    assert statement is compiled away. *)
Definition get_folder_names (debug : bool) (fs : filesystem)
    (directory_path : string) : outcome (list string) :=
  if debug && negb (Bool.eqb (is_invalid_directory fs directory_path) false)
  then Raise (AssertionError "Invalid directory path")
  else listdir fs directory_path.

Section Tables.

Context {cell : Type} {codec : CellCodec cell}.

(** [input_dataframe.to_csv(output_filename, index=False)] *)
Definition dataframe2csv (input_dataframe : DataFrame cell)
    (output_filename : string) (fs : filesystem)
    : outcome unit * filesystem :=
  write_text output_filename (to_csv input_dataframe) fs.

(** [pd.read_csv(input_filename)]: pandas opens the file itself. *)
Definition csv2dataframe (fs : filesystem) (input_filename : string)
    : outcome (DataFrame cell) :=
  obind (open_read fs input_filename) read_csv_text.

(** Modelled from the spec: [FileUtil.get_time()] is not among the
    sources; it is the generator of section 4.3 ([Clock]), fed with
    the wall clock of the world. *)
Definition get_time : act cell string := fun w =>
  let '(id, st) := new_snapshot_id (w_now w) (w_namer w) in
  (Return id, set_namer st w).

End Tables.

End FileUtil.

(* ===================================================================== *)
(** * The data processor ([src/data_process/data_process.py])            *)
(* ===================================================================== *)

Module DataProcess.

Import OS Pandas Clock Runtime FileUtil.

(** How a fractional row count becomes a whole one. *)
Inductive rounding : Type := RoundFloor | RoundCeiling | RoundHalfEven.

(** Python's [round] on an exact fraction: to the nearest integer, a tie
    to the even one. *)
Definition py_round (q : Q) : Z :=
  let f := Qfloor q in
  match (q - inject_Z f ?= 1 # 2)%Q with
  | Lt => f
  | Gt => (f + 1)%Z
  | Eq => if Z.even f then f else (f + 1)%Z
  end.

Definition round_with (mode : rounding) (q : Q) : Z :=
  match mode with
  | RoundFloor => Qfloor q
  | RoundCeiling => Qceiling q
  | RoundHalfEven => py_round q
  end.

Definition in_unit_interval (rate : Q) : bool :=
  if Qlt_le_dec 0 rate then (if Qlt_le_dec rate 1 then true else false)
  else false.

Definition insert_at {A} (i : nat) (x : A) (l : list A) : list A :=
  take i l ++ x :: drop i l.

(** A shuffle driven by the random numbers [seed] of the process: each
    row is put at a drawn position among the rows already placed. *)
Fixpoint shuffle_rows {A} (seed : list nat) (l : list A) : list A :=
  match l with
  | [] => []
  | x :: l' =>
      let placed := shuffle_rows (tail seed) l' in
      insert_at (hd 0%nat seed mod S (length placed)) x placed
  end.

Definition TRAIN : string := "train.csv".
Definition TEST : string := "test.csv".

Section Processor.

Context {cell : Type} {codec : CellCodec cell}.

(** The label column taken out of a frame: the frame without that
    column, and the column as a series on the same index. *)
Definition separate_label (df : DataFrame cell) (label_column : string)
    : option (DataFrame cell * Series cell) :=
  '(i, _) ← list_find (fun c => c = label_column) (df_columns df);
  items ← mapM (fun r : Z * list cell => c ← r.2 !! i; Some (r.1, c))
               (df_rows df);
  Some (mk_frame (delete i (df_columns df))
                 (map (fun r : Z * list cell => (r.1, delete i r.2))
                      (df_rows df)),
        mk_series label_column items).

(** A (data, label) pair put back into one table, the label column
    last. *)
Definition recombine (data : DataFrame cell) (labels : Series cell)
    (label_column : string) : DataFrame cell :=
  mk_frame (df_columns data ++ [label_column])
           (zip_with (fun (r : Z * list cell) (l : Z * cell) =>
                        (r.1, r.2 ++ [l.2]))
                     (df_rows data) (s_items labels)).


Definition train_count (mode : rounding) (rows : nat) (test_rate : Q) : nat :=
  Z.to_nat (round_with mode (inject_Z (Z.of_nat rows) * (1 - test_rate))).

(** Modelled from the spec: [DataProcess] is imported but is not among
    the sources.  Section 4.1, [split]: shuffle if asked, the first
    [1 - test_rate] fraction of the rows (integer-rounded, by [mode])
    is train and the remainder is test, the label column is separated
    out of each part; [ConfigError] unless [0 < test_rate < 1].  The
    result is in the order [make_dataset] unpacks it. *)
Definition split (mode : rounding) (table : DataFrame cell)
    (label_column : string) (test_rate : Q) (shuffle : bool)
    (seed : list nat)
    : outcome (DataFrame cell * DataFrame cell * Series cell * Series cell) :=
  if negb (in_unit_interval test_rate) then Raise ConfigError else
  let rows :=
    if shuffle then shuffle_rows seed (df_rows table) else df_rows table in
  let k := train_count mode (length rows) test_rate in
  let train := mk_frame (df_columns table) (take k rows) in
  let test := mk_frame (df_columns table) (drop k rows) in
  match separate_label train label_column,
        separate_label test label_column with
  | Some (train_data, train_label), Some (test_data, test_label) =>
      Return (train_data, test_data, train_label, test_label)
  | _, _ => Raise SchemaError
  end.

(** Modelled from the spec: section 4.1, [persist_snapshot].  Each pair
    is recombined and written under the fixed names [train.csv] and
    [test.csv]; the directory is created if absent, and [IOError] is
    raised if it exists and is non-empty.  The directory is the one
    the path names for the file system ([normdir]), so that a path
    given with a trailing separator is the same directory. *)
Definition persist_snapshot
    (train_data : DataFrame cell) (train_label : Series cell)
    (test_data : DataFrame cell) (test_label : Series cell)
    (label_column directory : string) (fs : filesystem)
    : outcome string * filesystem :=
  let target := normdir directory in
  match fs !! target with
  | Some (Dir (_ :: _)) => (Raise IOError, fs)
  | Some (File _) | Some Blob => (Raise IOError, fs)
  | present =>
      let fs0 :=
        match present with
        | None => mkdir target fs
        | Some _ => fs
        end in
      match dataframe2csv (recombine train_data train_label label_column)
                          (join target TRAIN) fs0 with
      | (Raise e, fs1) => (Raise e, fs1)
      | (Return _, fs1) =>
          match dataframe2csv (recombine test_data test_label label_column)
                              (join target TEST) fs1 with
          | (Raise e, fs2) => (Raise e, fs2)
          | (Return _, fs2) => (Return directory, fs2)
          end
      end
  end.

(** Modelled from the spec: section 4.1, [load_snapshot].  Both tables
    are read back and the label column is extracted from each;
    [NotFoundError] if an artifact is missing, [SchemaError] if the
    label column is. *)
Definition load_snapshot (directory label_column : string)
    (fs : filesystem)
    : outcome (DataFrame cell * DataFrame cell * Series cell * Series cell) :=
  let target := normdir directory in
  if is_invalid_file fs (join target TRAIN)
     || is_invalid_file fs (join target TEST)
  then Raise NotFoundError else
  obind (csv2dataframe fs (join target TRAIN)) (fun train =>
  obind (csv2dataframe fs (join target TEST)) (fun test =>
    match separate_label train label_column,
          separate_label test label_column with
    | Some (train_data, train_label), Some (test_data, test_label) =>
        Return (train_data, test_data, train_label, test_label)
    | _, _ => Raise SchemaError
    end)).

(** The four structures become four new objects. *)
Definition alloc4
    (s : DataFrame cell * DataFrame cell * Series cell * Series cell)
    : act cell (ref * ref * ref * ref) := fun w =>
  let '(d1, d2, l1, l2) := s in
  let '(r1, w1) := new_object (ODataFrame d1) w in
  let '(r2, w2) := new_object (ODataFrame d2) w1 in
  let '(r3, w3) := new_object (OSeries l1) w2 in
  let '(r4, w4) := new_object (OSeries l2) w3 in
  (Return (r1, r2, r3, r4), w4).

(** Modelled from the spec: [DataProcess.make_dataset] is [split]
    followed by [persist_snapshot] (section 4.2, SPLIT_READY). *)
Definition make_dataset (mode : rounding) (dataframe : ref)
    (label_column : string) (test_rate : Q) (shuffle : bool)
    (directory : string) : act cell (ref * ref * ref * ref) := fun w =>
  match w_heap w !! dataframe with
  | Some (ODataFrame table) =>
      match split mode table label_column test_rate shuffle (w_random w) with
      | Raise e => (Raise e, w)
      | Return (train_data, test_data, train_label, test_label) =>
          let w0 :=
            if shuffle
            then set_random (drop (df_len table) (w_random w)) w else w in
          match persist_snapshot train_data train_label test_data test_label
                                 label_column directory (w_fs w0) with
          | (Raise e, fs') => (Raise e, set_fs fs' w0)
          | (Return _, fs') =>
              alloc4 (train_data, test_data, train_label, test_label)
                     (set_fs fs' w0)
          end
      end
  | _ => (Raise SchemaError, w)
  end.

(** Modelled from the spec: [DataProcess.read_dataset] is
    [load_snapshot]. *)
Definition read_dataset (directory label_column : string)
    : act cell (ref * ref * ref * ref) := fun w =>
  match load_snapshot directory label_column (w_fs w) with
  | Raise e => (Raise e, w)
  | Return s => alloc4 s w
  end.

End Processor.

End DataProcess.

(* ===================================================================== *)
(** * backend/src/music_genre_calssification.py                          *)
(* ===================================================================== *)

Module MGC.

Import OS Pandas Clock Runtime FileUtil.

Section Class.

Context {cell : Type} {codec : CellCodec cell}.
Variable env : Collaborators cell.

(** The attributes [__init__] sets. *)
Record MusicGenreClassification : Type := mk_mgc {
  AFE : ref;
  CLF : ref;
  dataset_path : string;
  cfg : Config;
  setting_file : string
}.

Definition init (dataset_path setting_file : string)
    : M cell MusicGenreClassification :=
  do afe <- call AFE_init (audio_feature_extraction env setting_file);
  do clf <- call CLF_init (classifier env setting_file);
  do cfg <- call ConfigReader_init (config_reader env setting_file);
  ret (mk_mgc afe clf dataset_path cfg setting_file).

Definition feature_extraction (self : MusicGenreClassification)
    : M cell ref :=
  call AFE_extract_dataset
       (extract_dataset env (AFE self) (dataset_path self) "mean").

Definition make_dataset (self : MusicGenreClassification)
    (dataframe : ref) (output_directory : string)
    : M cell (ref * ref * ref * ref) :=
  do name <- local get_time;
  let directory_name_with_time := join output_directory name in
  do '(train_data, test_data, train_label, test_label) <-
    call DP_make_dataset
         (dp_make_dataset env dataframe (label_name (cfg self))
            (test_rate (cfg self)) (shuffle (cfg self))
            directory_name_with_time);
  ret (train_data, test_data, train_label, test_label).

Definition read_dataset (self : MusicGenreClassification)
    (input_data_directory_with_date : string)
    : M cell (ref * ref * ref * ref) :=
  do '(train_data, test_data, train_label, test_label) <-
    call DP_read_dataset
         (dp_read_dataset env input_data_directory_with_date
            (label_name (cfg self)));
  ret (train_data, test_data, train_label, test_label).

Definition data_process (self : MusicGenreClassification)
    (dataframe : ref) : M cell ref :=
  do processed_dataframe <- local (copy dataframe);
  do processed_dataframe <-
    call DP_normalize_dataframe
         (normalize_dataframe env processed_dataframe (label_name (cfg self)));
  do processed_dataframe <-
    call DP_factorize_lebel
         (factorize_lebel env processed_dataframe (label_name (cfg self)));
  ret processed_dataframe.

Definition training (self : MusicGenreClassification)
    (train_data train_label : ref) (output_directory : string)
    : M cell ref :=
  do model <- call CLF_training
                   (clf_training env (CLF self) train_data train_label);
  do name <- local get_time;
  do _ <- call CLF_save_model
               (clf_save_model env (CLF self) model
                  (join output_directory name));
  ret model.

Definition test (self : MusicGenreClassification)
    (model test_data test_label : ref) : M cell Q :=
  call CLF_test (clf_test env (CLF self) model test_data test_label).

Definition predict (self : MusicGenreClassification)
    (model target_data : ref) : M cell ref :=
  call CLF_predict (clf_predict env (CLF self) model target_data).

(** [main], with its two run-mode variables as arguments. *)
Definition run (feature_extraction_flag training_flag : bool)
    : M cell unit :=
  let setting_file := "../../config/master_config.ini" in
  let music_dataset_path := "../../data" in
  let model_directory_path := "../../model" in
  let output_data_directory := "../../feature" in
  let input_data_directory := "../../feature/2019-01-23_23:19:56.871484" in
  let model_file := "../../model/2019-01-23_23:19:59.720996/mlp.h5" in
  do MGC <- init music_dataset_path setting_file;
  do '(train_data, test_data, train_label, test_label) <-
    (if feature_extraction_flag then
       do _ <- print "Start feature extraction";
       do extracted_feature_dataframe <- feature_extraction MGC;
       do clean_dataframe <- data_process MGC extracted_feature_dataframe;
       make_dataset MGC clean_dataframe output_data_directory
     else
       read_dataset MGC input_data_directory);
  do model <-
    (if training_flag then
       training MGC train_data train_label model_directory_path
     else
       call CLF_load_model (clf_load_model env (CLF MGC) model_file));
  do accuracy <- test MGC model test_data test_label;
  do _ <- print "Start prediction";
  print_accuracy accuracy.

(** [feature_extraction = False] and [training = True] *)
Definition main : M cell unit := run false true.

End Class.

End MGC.

(* ===================================================================== *)
(** * Sample tables, worlds and collaborators                            *)
(* ===================================================================== *)

Module Examples.

Import OS Pandas Clock Runtime FileUtil.

#[global] Instance scalar_eq_dec : EqDecision scalar.
Proof. solve_decision. Defined.

(** Five samples, two features, the label column in the middle. *)
Definition genres : DataFrame scalar :=
  mk_frame ["f1"; "genre"; "f2"]
    [(0%Z, [SInt 1; SText "rock"; SInt 10]);
     (1%Z, [SInt 2; SText "jazz"; SInt 20]);
     (2%Z, [SInt 3; SText "rock"; SInt 30]);
     (3%Z, [SInt 4; SText "jazz"; SInt 40]);
     (4%Z, [SInt 5; SText "pop"; SInt (-50)])].

(** The same table after label encoding. *)
Definition encoded_genres : DataFrame scalar :=
  mk_frame ["f1"; "genre"; "f2"]
    [(0%Z, [SInt 1; SInt 0; SInt 10]);
     (1%Z, [SInt 2; SInt 1; SInt 20]);
     (2%Z, [SInt 3; SInt 0; SInt 30]);
     (3%Z, [SInt 4; SInt 1; SInt 40]);
     (4%Z, [SInt 5; SInt 2; SInt (-50)])].


Definition tick : datetime := mk_datetime 2019 1 23 23 19 56 871484.
Definition later_tick : datetime := mk_datetime 2019 1 23 23 19 59 720996.

Definition sample_config : Config := mk_config "genre" (1 # 5) false.

(** A world with the three root directories of [main], the encoded
    table at reference 1 and the raw table at reference 2. *)
Definition sample_world : World scalar :=
  mk_world
    (<["../../feature" := Dir []]>
      (<["../../model" := Dir []]> (<["../../data" := Dir ["rock"; "jazz"]]> ∅)))
    (<[1%positive := ODataFrame encoded_genres]>
      (<[2%positive := ODataFrame genres]> ∅))
    tick fresh_namer [3; 1; 4; 1; 5]%nat.


(** A normaliser that works in place: every integer outside the label
    column is doubled in the object it is given. *)
Definition double (c : scalar) : scalar :=
  match c with SInt z => SInt (2 * z) | _ => c end.

Definition rescale (label : string) (df : DataFrame scalar) : DataFrame scalar :=
  match list_find (fun c => c = label) (df_columns df) with
  | Some (i, _) =>
      mk_frame (df_columns df)
        (map (fun r : Z * list scalar =>
                (r.1, imap (fun j c => if Nat.eqb j i then c else double c) r.2))
             (df_rows df))
  | None => df
  end.

Definition rescale_in_place (r : ref) (label : string) : act scalar ref :=
  fun w =>
    match w_heap w !! r with
    | Some (ODataFrame df) =>
        (Return r, set_heap (<[r := ODataFrame (rescale label df)]> (w_heap w)) w)
    | _ => (Raise SchemaError, w)
    end.

(** An encoder that returns a new object: each label becomes the rank
    of its first occurrence. *)
Definition code_of (seen : list scalar) (c : scalar) : scalar :=
  match list_find (fun x => x = c) seen with
  | Some (k, _) => SInt (Z.of_nat k)
  | None => c
  end.

Definition factorize (label : string) (df : DataFrame scalar) : DataFrame scalar :=
  match list_find (fun c => c = label) (df_columns df) with
  | Some (i, _) =>
      let seen := remove_dups (omap (fun r : Z * list scalar => r.2 !! i) (df_rows df)) in
      mk_frame (df_columns df)
        (map (fun r : Z * list scalar =>
                (r.1, imap (fun j c => if Nat.eqb j i then code_of seen c else c) r.2))
             (df_rows df))
  | None => df
  end.

Definition factorize_to_new (r : ref) (label : string) : act scalar ref :=
  fun w =>
    match w_heap w !! r with
    | Some (ODataFrame df) => alloc (ODataFrame (factorize label df)) w
    | _ => (Raise SchemaError, w)
    end.

(** Collaborators for a complete run: the data processor of
    [DataProcess], a feature extractor that yields [genres], and a
    classifier whose model is opaque and whose accuracy is 3/4. *)
Definition reference_env (mode : DataProcess.rounding) : Collaborators scalar :=
  {| audio_feature_extraction := fun _ => alloc (OOpaque 0);
     classifier := fun _ => alloc (OOpaque 1);
     config_reader := fun _ w => (Return sample_config, w);
     extract_dataset := fun _ _ _ => alloc (ODataFrame genres);
     normalize_dataframe := rescale_in_place;
     factorize_lebel := factorize_to_new;
     dp_make_dataset := DataProcess.make_dataset mode;
     dp_read_dataset := DataProcess.read_dataset;
     clf_training := fun _ _ _ => alloc (OOpaque 2);
     clf_save_model := fun _ _ _ w => (Return tt, w);
     clf_load_model := fun _ _ => alloc (OOpaque 2);
     clf_test := fun _ _ _ _ w => (Return (3 # 4), w);
     clf_predict := fun _ _ _ => alloc (OOpaque 3) |}.

Definition sample_mgc : MGC.MusicGenreClassification :=
  MGC.mk_mgc 10%positive 11%positive "../../data" sample_config
             "../../config/master_config.ini".

End Examples.

(* ===================================================================== *)
(** * Facts about strings                                                 *)
(* ===================================================================== *)

Section Strings.

Import OS Clock.

Lemma string_app_cons (c : ascii) (s t : string) :
  String c s +:+ t = String c (s +:+ t).
Proof. reflexivity. Qed.

Lemma string_app_nil_l (t : string) : EmptyString +:+ t = t.
Proof. reflexivity. Qed.

Lemma string_app_nil_r (s : string) : s +:+ EmptyString = s.
Proof.
  induction s as [|c s IH]; [done|]. by rewrite string_app_cons, IH.
Qed.

Lemma string_app_assoc (a b c : string) : (a +:+ b) +:+ c = a +:+ (b +:+ c).
Proof.
  induction a as [|x a IH]; [done|]. by rewrite !string_app_cons, IH.
Qed.

Lemma length_app_string (a b : string) :
  String.length (a +:+ b) = String.length a + String.length b.
Proof.
  induction a as [|x a IH]; [done|]. rewrite string_app_cons. simpl.
  by rewrite IH.
Qed.

Lemma string_app_inj (a b s t : string) :
  String.length a = String.length b ->
  a +:+ s = b +:+ t -> a = b /\ s = t.
Proof.
  revert b. induction a as [|x a IH]; intros [|y b] Hlen E; try done.
  rewrite !string_app_cons in E. injection E as -> E.
  destruct (IH b) as [-> ->]; auto.
Qed.

Lemma contains_char_app (c : ascii) (a b : string) :
  contains_char c (a +:+ b) = contains_char c a || contains_char c b.
Proof.
  induction a as [|x a IH]; [done|]. rewrite string_app_cons. simpl.
  rewrite IH. by rewrite orb_assoc.
Qed.

Lemma lex_eq c k : lex c k = Eq -> c = Eq /\ k = Eq.
Proof. destruct c; simpl; intros; by try discriminate. Qed.

Lemma string_compare_refl (s : string) : String.compare s s = Eq.
Proof.
  induction s as [|c s IH]; simpl; [done|].
  unfold Ascii.compare. by rewrite N.compare_refl.
Qed.

Lemma string_compare_cons (c : ascii) (s t : string) :
  String.compare (String c s) (String c t) = String.compare s t.
Proof. simpl. unfold Ascii.compare. by rewrite N.compare_refl. Qed.

Lemma string_compare_sep (c : ascii) (s t : string) :
  String.compare (String c EmptyString +:+ s) (String c EmptyString +:+ t)
  = String.compare s t.
Proof. exact (string_compare_cons c s t). Qed.

(** Two texts that start with blocks of the same length are ordered by
    the blocks first. *)
Lemma string_compare_app (a b s t : string) :
  String.length a = String.length b ->
  String.compare (a +:+ s) (b +:+ t)
  = lex (String.compare a b) (String.compare s t).
Proof.
  revert b. induction a as [|x a IH]; intros [|y b] Hlen; try done.
  rewrite !string_app_cons. simpl in *.
  destruct (Ascii.compare x y); simpl; auto.
Qed.

End Strings.

(* ===================================================================== *)
(** * Properties of [FileUtil]                                            *)
(* ===================================================================== *)

Section FileUtilFacts.

Import OS Pandas FileUtil.


Lemma is_valid_directory_isdir fs p : is_valid_directory fs p = isdir fs p.
Proof. unfold is_valid_directory, is_invalid_directory. apply negb_involutive. Qed.

(** C9.  On every path the two file predicates are complements of each
    other, and so are the two directory predicates. *)
Theorem valid_is_not_invalid (fs : filesystem) (p : string) :
  is_valid_file fs p = negb (is_invalid_file fs p) /\
  is_invalid_file fs p = negb (is_valid_file fs p) /\
  is_valid_directory fs p = negb (is_invalid_directory fs p) /\
  is_invalid_directory fs p = negb (is_valid_directory fs p).
Proof.
  unfold is_valid_file, is_valid_directory.
  rewrite !negb_involutive. done.
Qed.

Lemma last_index_of_enumerate {A} (l : list A) (g : nat -> nat) (a : nat) :
  for_each (imap (fun i x => (g i, x)) l) (fun _ '(i, _) => i) a
  = match l with [] => a | _ => g (length l - 1) end.
Proof.
  revert g a. induction l as [|x l IH]; intros g a; [done|].
  cbn [imap for_each fold_left]. unfold for_each in IH.
  change (fold_left (fun _ '(i, _) => i)
                    (imap (fun i x => (g (S i), x)) l) (g 0)
          = g (length (x :: l) - 1)).
  rewrite (IH (fun i => g (S i))). destruct l; simpl; [done|].
  by rewrite Nat.sub_0_r.
Qed.

Lemma get_file_length_lines fs p content :
  fs !! p = Some (File content) ->
  get_file_length fs p = Return (Nat.max 1 (length (text_lines content))).
Proof.
  intros Hp. unfold get_file_length, open_read. rewrite Hp. simpl.
  unfold enumerate. rewrite (last_index_of_enumerate _ (fun i => i)).
  f_equal. destruct (text_lines content); simpl; lia.
Qed.

Lemma get_file_length_positive fs p n :
  get_file_length fs p = Return n -> n <> 0.
Proof.
  unfold get_file_length. destruct (open_read fs p); simpl; [|done].
  intros [= <-]. lia.
Qed.

(** C10.  [get_file_length] never returns 0: on a readable file of [n]
    lines it returns 1 when [n = 0] and [n] when [n >= 1]. *)
Theorem get_file_length_never_zero (fs : filesystem) (p content : string)
    (n : nat) :
  fs !! p = Some (File content) ->
  length (text_lines content) = n ->
  get_file_length fs p = Return (if decide (n = 0) then 1 else n) /\
  get_file_length fs p <> Return 0.
Proof.
  intros Hp Hn. rewrite (get_file_length_lines _ _ _ Hp), Hn. split.
  - f_equal. case_decide; lia.
  - intros [= H]. lia.
Qed.

Lemma get_file_length_never_zero_witness :
  get_file_length (<["empty.txt" := File EmptyString]> ∅) "empty.txt" = Return 1 /\
  get_file_length (<["empty.txt" := File EmptyString]> ∅) "empty.txt" <> Return 0.
Proof.
  apply (get_file_length_never_zero _ "empty.txt" EmptyString 0);
    reflexivity.
Defined.

(** C8.  Listing the class folders of a path that is not a directory and
    reading a table from a path that is not a file both raise instead of
    producing a result; with assertions on, [get_folder_names] rejects
    the path itself, before [os.listdir] is reached. *)
Theorem io_fails_on_missing_path {cell : Type} {codec : CellCodec cell}
    (debug : bool) (fs : filesystem) (p : string) :
  (is_invalid_directory fs p = true ->
     raised (get_folder_names debug fs p) /\
     (debug = true ->
      get_folder_names debug fs p = Raise (AssertionError "Invalid directory path"))) /\
  (is_invalid_file fs p = true ->
     raised (csv2dataframe (cell := cell) fs p)).
Proof.
  split.
  - unfold is_invalid_directory, isdir, get_folder_names, is_invalid_directory,
      isdir, listdir.
    destruct (fs !! p) as [[?|?|]|]; simpl; try done; intros _;
      destruct debug; simpl; done.
  - unfold is_invalid_file, isfile, csv2dataframe, open_read.
    destruct (fs !! p) as [[?|?|]|]; simpl; done.
Qed.

Lemma io_fails_on_missing_path_witness :
  raised (get_folder_names true ∅ "../../data") /\
  get_folder_names true ∅ "../../data"
    = Raise (AssertionError "Invalid directory path") /\
  raised (csv2dataframe (cell := scalar) ∅ "../../data").
Proof.
  destruct (io_fails_on_missing_path (cell := scalar) true ∅ "../../data")
    as [Hdir Hfile].
  destruct (Hdir eq_refl) as [H1 H2].
  exact (conj H1 (conj (H2 eq_refl) (Hfile eq_refl))).
Defined.

End FileUtilFacts.

(* ===================================================================== *)
(** * Properties of the snapshot names                                    *)
(* ===================================================================== *)

Section SnapshotNames.

Import Clock.

Lemma digit_compare (a b : N) :
  (a < 10 -> b < 10 ->
   Ascii.compare (digit a) (digit b) = (a ?= b))%N.
Proof.
  intros Ha Hb. unfold Ascii.compare, digit.
  rewrite !N.mod_small by done.
  rewrite !N_ascii_embedding by lia.
  destruct (N.compare_spec a b);
    [apply N.compare_eq_iff|apply N.compare_lt_iff|apply N.compare_gt_iff]; lia.
Qed.

Lemma length_zero_padded (w : nat) (n : N) :
  String.length (zero_padded w n) = w.
Proof. revert n. induction w; intros n; simpl; auto. Qed.

Lemma compare_div_mod (a b p : N) :
  (0 < p)%N ->
  (a ?= b)%N = lex (a / p ?= b / p)%N (a mod p ?= b mod p)%N.
Proof.
  intros Hp.
  pose proof (N.div_mod a p ltac:(lia)) as Ea.
  pose proof (N.div_mod b p ltac:(lia)) as Eb.
  pose proof (N.mod_lt a p ltac:(lia)) as La.
  pose proof (N.mod_lt b p ltac:(lia)) as Lb.
  set (qa := (a / p)%N) in *. set (qb := (b / p)%N) in *.
  set (ra := (a mod p)%N) in *. set (rb := (b mod p)%N) in *.
  clearbody qa qb ra rb.
  destruct (N.compare_spec qa qb) as [E|L|L]; simpl.
  - subst qb.
    destruct (N.compare_spec ra rb);
      [apply N.compare_eq_iff|apply N.compare_lt_iff|apply N.compare_gt_iff]; lia.
  - apply N.compare_lt_iff. nia.
  - apply N.compare_gt_iff. nia.
Qed.

(** On values that fit, the order of the padded texts is the order of
    the numbers. *)
Lemma zero_padded_compare (w : nat) (a b : N) :
  (a < 10 ^ N.of_nat w -> b < 10 ^ N.of_nat w ->
   String.compare (zero_padded w a) (zero_padded w b) = (a ?= b))%N.
Proof.
  revert a b. induction w as [|w IH]; intros a b Ha Hb.
  - simpl in *. assert (a = 0 /\ b = 0)%N as [-> ->] by lia. done.
  - rewrite Nat2N.inj_succ, N.pow_succ_r' in Ha, Hb.
    assert (0 < 10 ^ N.of_nat w)%N as Hp by (apply N.neq_0_lt_0, N.pow_nonzero; lia).
    cbn [zero_padded String.compare].
    rewrite digit_compare by (apply N.Div0.div_lt_upper_bound; lia).
    rewrite IH by (apply N.mod_lt; lia).
    symmetry. apply (compare_div_mod a b _ Hp).
Qed.

Lemma length_stamp (d : datetime) : String.length (stamp d) = 26.
Proof.
  unfold stamp. rewrite !length_app_string, !length_zero_padded. done.
Qed.

Ltac pad_bound :=
  change (10 ^ N.of_nat 6)%N with 1000000%N;
  change (10 ^ N.of_nat 4)%N with 10000%N;
  change (10 ^ N.of_nat 2)%N with 100%N; lia.

(** The lexical order of two stamps is the chronological order of the
    readings. *)
Lemma stamp_compare (a b : datetime) :
  well_formed a -> well_formed b ->
  String.compare (stamp a) (stamp b) = compare a b.
Proof.
  intros (Hy & Hm & Hd & Hh & Hmi & Hs & Hu) (Hy' & Hm' & Hd' & Hh' & Hmi' & Hs' & Hu').
  unfold stamp, compare.
  repeat (rewrite string_compare_app by (by rewrite !length_zero_padded);
          rewrite zero_padded_compare by pad_bound;
          f_equal; rewrite string_compare_sep).
  apply zero_padded_compare; pad_bound.
Qed.

Lemma datetime_compare_eq (a b : datetime) : compare a b = Eq -> a = b.
Proof.
  unfold compare. intros H.
  repeat (apply lex_eq in H as [?%N.compare_eq_iff H]).
  apply N.compare_eq_iff in H.
  destruct a, b; simpl in *; congruence.
Qed.

Lemma datetime_compare_refl (a : datetime) : compare a a = Eq.
Proof. unfold compare. by rewrite !N.compare_refl. Qed.

Lemma datetime_compare_antisym (a b : datetime) :
  compare b a = CompOpp (compare a b).
Proof.
  unfold compare.
  rewrite (N.compare_antisym (year a)), (N.compare_antisym (month a)),
    (N.compare_antisym (day a)), (N.compare_antisym (hour a)),
    (N.compare_antisym (minute a)), (N.compare_antisym (second a)),
    (N.compare_antisym (microsecond a)).
  repeat match goal with
         | |- context [(?x ?= ?y)%N] => destruct (x ?= y)%N; simpl; try done
         end.
Qed.

Lemma stamp_inj (a b : datetime) :
  well_formed a -> well_formed b -> stamp a = stamp b -> a = b.
Proof.
  intros Ha Hb E. apply datetime_compare_eq.
  rewrite <- stamp_compare, E by done. apply string_compare_refl.
Qed.

Lemma id_of_stamp (t : datetime) (k : nat) : id_of t k = stamp t +:+ suffix k.
Proof. done. Qed.

(** The counters are ordered as the numbers they count. *)
Lemma suffix_compare (k k' : nat) :
  String.compare (suffix k) (suffix k') = Nat.compare k k'.
Proof.
  revert k'. induction k as [|k IH]; intros [|k']; try done.
  cbn [suffix]. rewrite string_compare_cons. apply IH.
Qed.

(** Identifiers are ordered by their readings first, by their counters
    next. *)
Lemma id_of_compare (t t' : datetime) (k k' : nat) :
  well_formed t -> well_formed t' ->
  String.compare (id_of t k) (id_of t' k')
  = lex (compare t t') (Nat.compare k k').
Proof.
  intros Ht Ht'. rewrite !id_of_stamp.
  rewrite string_compare_app by (by rewrite !length_stamp).
  by rewrite stamp_compare, suffix_compare.
Qed.

Lemma answered_cons (a t : datetime) (readings : list datetime) :
  answered a (t :: readings)
  = (if decide (t = a) then 1 else 0) + answered a readings.
Proof.
  unfold answered. rewrite filter_cons. by case_decide.
Qed.

Lemma run_ids_length (st : namer) (ticks : list datetime) :
  length (run_ids st ticks) = length ticks.
Proof. revert st. induction ticks; intros st; simpl; auto. Qed.

(** The identifier of a request carries the number of earlier requests
    that were answered with the same reading. *)
Lemma run_ids_lookup (ticks : list datetime) (st : namer) (i : nat)
    (a : datetime) :
  ticks !! i = Some a ->
  run_ids st ticks !! i
  = Some (id_of a (answered a (issued st) + answered a (take i ticks))).
Proof.
  revert st i. induction ticks as [|t ticks IH]; intros st [|i]; simpl;
    try done.
  - intros [= ->]. by rewrite Nat.add_0_r.
  - intros Hi. rewrite (IH _ _ Hi). simpl. rewrite !answered_cons.
    do 2 f_equal. lia.
Qed.

Lemma answered_take_lt (ticks : list datetime) (i j : nat) (a : datetime) :
  ticks !! i = Some a -> i < j ->
  answered a (take i ticks) < answered a (take j ticks).
Proof.
  revert i j. induction ticks as [|t ticks IH]; intros [|i] [|j]; simpl;
    try done; try lia.
  - intros [= ->] _. rewrite answered_cons, decide_True by done.
    unfold answered. simpl. lia.
  - intros Hi Hij. rewrite !answered_cons.
    specialize (IH i j Hi ltac:(lia)). lia.
Qed.

(** C2.  Every identifier of a run starts with the microsecond reading
    it was made from.  The lexical order of two identifiers is the
    chronological order of their requests: the order of the readings
    and, for two requests answered within one clock tick, the order in
    which they were made.  No two identifiers of a run are equal.
    Nothing is assumed of the clock: it may stand still or be set back
    during the run. *)
Theorem snapshot_ids_sortable_and_distinct (ticks : list datetime) :
  Forall well_formed ticks ->
  let ids := run_ids fresh_namer ticks in
  length ids = length ticks /\
  NoDup ids /\
  forall i j a b x y,
    ticks !! i = Some a -> ticks !! j = Some b ->
    ids !! i = Some x -> ids !! j = Some y ->
    (exists rest, x = stamp a +:+ rest) /\
    String.compare x y = lex (compare a b) (Nat.compare i j) /\
    (i <> j -> x <> y).
Proof.
  intros Hwf ids. rewrite Forall_forall in Hwf.
  assert (Horder : forall i j a b x y,
            ticks !! i = Some a -> ticks !! j = Some b ->
            ids !! i = Some x -> ids !! j = Some y ->
            String.compare x y = lex (compare a b) (Nat.compare i j)).
  { intros i j a b x y Ha Hb Hx Hy. subst ids.
    rewrite (run_ids_lookup _ _ _ _ Ha) in Hx.
    rewrite (run_ids_lookup _ _ _ _ Hb) in Hy.
    injection Hx as <-. injection Hy as <-.
    rewrite id_of_compare by (apply Hwf; by eapply list_elem_of_lookup_2).
    destruct (compare a b) eqn:Hab; try done.
    apply datetime_compare_eq in Hab as <-. cbn [lex].
    change (issued fresh_namer) with (@nil datetime).
    change (answered a []) with 0. cbn [Nat.add].
    destruct (Nat.compare_spec i j) as [->|Hij|Hij].
    - rewrite Hb in Ha. apply Nat.compare_refl.
    - apply Nat.compare_lt_iff. by apply answered_take_lt.
    - apply Nat.compare_gt_iff. by apply answered_take_lt. }
  assert (Hdistinct : forall i j x,
            ids !! i = Some x -> ids !! j = Some x -> i = j).
  { intros i j x Hx Hy.
    destruct (ticks !! i) as [a|] eqn:Ha.
    2:{ apply lookup_ge_None in Ha. apply lookup_lt_Some in Hx.
        subst ids. rewrite run_ids_length in Hx. lia. }
    destruct (ticks !! j) as [b|] eqn:Hb.
    2:{ apply lookup_ge_None in Hb. apply lookup_lt_Some in Hy.
        subst ids. rewrite run_ids_length in Hy. lia. }
    pose proof (Horder i j a b x x Ha Hb Hx Hy) as H.
    rewrite string_compare_refl in H. symmetry in H.
    apply lex_eq in H as [_ H]. by apply Nat.compare_eq_iff. }
  split; [apply run_ids_length|].
  split; [by apply NoDup_alt|].
  intros i j a b x y Ha Hb Hx Hy.
  split; [|split; [by eapply Horder|]].
  - subst ids. rewrite (run_ids_lookup _ _ _ _ Ha) in Hx.
    injection Hx as <-. rewrite id_of_stamp. eauto.
  - intros Hij ->. apply Hij. by eapply Hdistinct.
Qed.

Lemma snapshot_ids_sortable_and_distinct_witness :
  let ticks := [Examples.tick; Examples.later_tick; Examples.tick] in
  let ids := run_ids fresh_namer ticks in
  length ids = length ticks /\
  NoDup ids /\
  forall i j a b x y,
    ticks !! i = Some a -> ticks !! j = Some b ->
    ids !! i = Some x -> ids !! j = Some y ->
    (exists rest, x = stamp a +:+ rest) /\
    String.compare x y = lex (compare a b) (Nat.compare i j) /\
    (i <> j -> x <> y).
Proof.
  apply (snapshot_ids_sortable_and_distinct
           [Examples.tick; Examples.later_tick; Examples.tick]).
  repeat constructor; vm_compute; congruence.
Defined.

End SnapshotNames.

(* ===================================================================== *)
(** * Properties of the orchestrator                                      *)
(* ===================================================================== *)

Section Orchestrator.

Import OS Pandas Clock Runtime FileUtil MGC.

Context {cell : Type} {codec : CellCodec cell}.

(** One step of a run: split on what the next call does. *)
Ltac run_step :=
  match goal with
  | |- context [match ?p with (_, _) => _ end] =>
      is_var p; destruct p; simpl
  | |- context [match ?f ?w with (o, w') => _ end] =>
      destruct (f w) as [[?|?] ?] eqn:?; simpl
  | |- context [match w_heap ?w !! ?r with _ => _ end] =>
      destruct (w_heap w !! r) as [[?|?|?]|] eqn:?; simpl
  end.

Ltac run_all env :=
  destruct env; unfold run, init, feature_extraction, data_process,
    make_dataset, read_dataset, training, test, bind, call, local, ret,
    print, print_accuracy, copy, alloc, new_object, get_time; simpl.

(** C5.  The calls of a run that obtain or prepare the feature table are
    an initial part of exactly one of the two paths, extraction then
    normalisation then label encoding then split-and-persist, or the
    reload alone, according to the run mode; a run that completes has
    made all the calls of its path, once each and in that order. *)
Theorem run_uses_one_feature_source (env : Collaborators cell)
    (feature_extraction_flag training_flag : bool) (w : World cell) :
  let r := run env feature_extraction_flag training_flag w in
  let path := if feature_extraction_flag then fresh_path else reuse_path in
  data_calls (trace r) `prefix_of` path /\
  (out r = Return tt -> data_calls (trace r) = path).
Proof.
  run_all env.
  destruct feature_extraction_flag, training_flag; simpl.
  all: repeat (run_step; try (split; [by eexists | done])).
Qed.

(** Case analysis on a membership in a trace that is known event by
    event. *)
Ltac trace_member H :=
  repeat (apply elem_of_cons in H as [H|H];
          [first [discriminate H | injection H as ? ?; subst
                 | injection H as ?; subst]|]);
  try (by apply elem_of_nil in H).

(** C6.  No run that ends with an exception prints an accuracy; and
    when a call of the run raises, the run ends there with that
    exception: the failed call is the last event, and unless the failed
    call is the test itself the test is never called. *)
Theorem run_aborts_on_failure (env : Collaborators cell)
    (feature_extraction_flag training_flag : bool) (w : World cell) :
  let r := run env feature_extraction_flag training_flag w in
  (raised (out r) -> forall a, PrintedAccuracy a ∉ trace r) /\
  (forall c e,
     Called c (Some e) ∈ trace r ->
     out r = Raise e /\
     last (trace r) = Some (Called c (Some e)) /\
     (c <> CLF_test -> forall s, Called CLF_test s ∉ trace r)).
Proof.
  run_all env.
  destruct feature_extraction_flag, training_flag; simpl.
  all: repeat run_step.
  all: split;
    [intros Hraised acc Hacc; try done; by trace_member Hacc
    |intros failed_call failure Hfailed; trace_member Hfailed].
  all: split; [done|]; split; [done|].
  all: intros Hnot_test status Htest; trace_member Htest;
    by try destruct Hnot_test.
Qed.

End Orchestrator.

(* ===================================================================== *)
(** * [data_process] and the frame it is given                            *)
(* ===================================================================== *)

Section DataProcessFrame.

Import OS Pandas Clock Runtime FileUtil MGC.

Context {cell : Type} {codec : CellCodec cell}.

Lemma fresh_is_new (h : gmap ref (obj cell)) : h !! fresh (dom h) = None.
Proof. apply not_elem_of_dom, is_fresh. Qed.


(** What the two calls do to a world in which the copy [c] has just
    been made. *)
Lemma process_copy_frame (env : Collaborators cell) (label : string)
    (w : World cell) (c : ref) (oc : obj cell) :
  confined (normalize_dataframe env) ->
  confined (factorize_lebel env) ->
  w_heap w !! c = None ->
  forall r : result cell ref,
  r = bind (call DP_normalize_dataframe (normalize_dataframe env c label))
        (fun p => bind (call DP_factorize_lebel (factorize_lebel env p label))
                       (fun q => ret q))
        (set_heap (<[c := oc]> (w_heap w)) w) ->
  (forall l o, w_heap w !! l = Some o -> w_heap (final r) !! l = Some o) /\
  (forall p, out r = Return p -> w_heap w !! p = None).
Proof.
  intros Hnorm Hfact Hc r ->. unfold bind, call, ret.
  set (w1 := set_heap (<[c := oc]> (w_heap w)) w).
  destruct (normalize_dataframe env c label w1) as [o1 w2] eqn:E1.
  destruct (Hnorm _ _ _ _ _ E1) as [Hframe1 Hret1].
  assert (Hkeep1 : forall l o,
            w_heap w !! l = Some o -> w_heap w2 !! l = Some o).
  { intros l o Hl. assert (l <> c) by congruence.
    rewrite Hframe1; subst w1; simpl; rewrite ?lookup_insert_ne; eauto. }
  destruct o1 as [a|e1]; simpl; [|split; [done|discriminate]].
  assert (Ha : w_heap w !! a = None).
  { destruct (Hret1 a eq_refl) as [->|Hnone]; [done|].
    subst w1. simpl in Hnone. apply lookup_insert_None in Hnone. tauto. }
  destruct (factorize_lebel env a label w2) as [o2 w3] eqn:E2.
  destruct (Hfact _ _ _ _ _ E2) as [Hframe2 Hret2].
  assert (Hkeep2 : forall l o,
            w_heap w !! l = Some o -> w_heap w3 !! l = Some o).
  { intros l o Hl. assert (l <> a) by congruence.
    rewrite Hframe2; eauto. }
  destruct o2 as [b|e2]; simpl; [|split; [done|discriminate]].
  split; [done|]. intros p [= <-].
  destruct (Hret2 b eq_refl) as [->|Hnone]; [done|].
  destruct (w_heap w !! b) as [ob|] eqn:Eb; [|done].
  apply Hkeep1 in Eb. congruence.
Qed.

(** C7.  Whatever the normaliser and the label encoder do to the frame
    they are handed, [data_process] hands them its own copy: every
    object that exists before the call, the input frame among them, is
    the same after the call, and the frame returned is an object that
    did not exist before the call. *)
Theorem data_process_keeps_input (env : Collaborators cell)
    (self : MusicGenreClassification) (dataframe : ref) (w : World cell) :
  confined (normalize_dataframe env) ->
  confined (factorize_lebel env) ->
  let r := data_process env self dataframe w in
  (forall l o, w_heap w !! l = Some o -> w_heap (final r) !! l = Some o) /\
  (forall p, out r = Return p -> p <> dataframe /\ w_heap w !! p = None).
Proof.
  intros Hnorm Hfact r.
  assert (Hr : r = data_process env self dataframe w) by done. clearbody r.
  unfold data_process in Hr. unfold bind at 1 in Hr.
  unfold local at 1, copy, alloc, new_object in Hr.
  destruct (w_heap w !! dataframe) as [[df|s|tag]|] eqn:Hd;
    cbv beta iota zeta in Hr;
    try (subst r; split; [done|discriminate]);
    match type of Hr with
    | _ = match ?r' with mk_result _ _ _ => _ end =>
        destruct (process_copy_frame env _ w _ _ Hnorm Hfact
                    (fresh_is_new _) r' eq_refl) as [Hkeep Hnew];
        destruct r' as [t o w2]
    end; subst r; simpl in *.
  all: split; [done|]; intros p Hp; split; [|by apply Hnew].
  all: intros ->; apply Hnew in Hp; congruence.
Qed.

End DataProcessFrame.

(* ===================================================================== *)
(** * Properties of the split                                             *)
(* ===================================================================== *)

Section SplitCounts.

Import OS Pandas Clock Runtime FileUtil DataProcess.

Lemma py_round_close (q : Q) :
  (- (1 # 2) <= inject_Z (py_round q) - q <= 1 # 2)%Q.
Proof.
  unfold py_round.
  pose proof (Qfloor_le q) as Hlo. pose proof (Qlt_floor q) as Hhi.
  rewrite inject_Z_plus in Hhi. change (inject_Z 1) with 1%Q in Hhi.
  destruct (q - inject_Z (Qfloor q) ?= 1 # 2)%Q eqn:E.
  - apply Qeq_alt in E.
    destruct (Z.even (Qfloor q)); rewrite ?inject_Z_plus;
      change (inject_Z 1) with 1%Q; lra.
  - apply Qlt_alt in E. lra.
  - apply Qgt_alt in E. rewrite inject_Z_plus.
    change (inject_Z 1) with 1%Q. lra.
Qed.

Lemma round_with_close (mode : rounding) (q : Q) :
  (- 1 < inject_Z (round_with mode q) - q < 1)%Q.
Proof.
  destruct mode; simpl.
  - pose proof (Qfloor_le q) as H0. pose proof (Qlt_floor q) as H.
    rewrite inject_Z_plus in H. change (inject_Z 1) with 1%Q in H. lra.
  - pose proof (Qle_ceiling q) as H0. pose proof (Qceiling_lt q) as H.
    unfold Z.sub in H. rewrite inject_Z_plus, inject_Z_opp in H.
    change (inject_Z 1) with 1%Q in H. lra.
  - pose proof (py_round_close q). lra.
Qed.

Lemma in_unit_interval_spec (rate : Q) :
  in_unit_interval rate = true <-> (0 < rate /\ rate < 1)%Q.
Proof.
  unfold in_unit_interval.
  destruct (Qlt_le_dec 0 rate), (Qlt_le_dec rate 1); split;
    try done; intros [? ?]; lra.
Qed.

(** The number of test rows is within one of the rounded share. *)
Lemma test_count_close (mode : rounding) (n : nat) (rate : Q) :
  (0 < rate /\ rate < 1)%Q ->
  let k := train_count mode n rate in
  k <= n /\
  (Z.abs (Z.of_nat (n - k) - py_round (inject_Z (Z.of_nat n) * rate)) <= 1)%Z.
Proof.
  intros [Hr0 Hr1] k. subst k. unfold train_count.
  set (N := inject_Z (Z.of_nat n)).
  set (x := (N * (1 - rate))%Q).
  assert (HN : (0 <= N)%Q).
  { subst N. change 0%Q with (inject_Z 0). rewrite <- Zle_Qle. lia. }
  assert (Hxy : (x == N - N * rate)%Q) by (subst x; ring).
  assert (Hy : (0 <= N * rate)%Q) by (apply Qmult_le_0_compat; lra).
  assert (Hx : (0 <= x)%Q) by (subst x; apply Qmult_le_0_compat; lra).
  pose proof (round_with_close mode x) as Hc.
  pose proof (py_round_close (N * rate)) as Hp.
  set (t := round_with mode x) in *.
  set (u := py_round (N * rate)) in *.
  assert (Ht0 : (0 <= t)%Z).
  { assert (H : (-1 < t)%Z); [|lia].
    rewrite Zlt_Qlt. change (inject_Z (-1)) with (-1)%Q. lra. }
  assert (Htn : (t <= Z.of_nat n)%Z).
  { assert (H : (t < Z.of_nat n + 1)%Z); [|lia].
    rewrite Zlt_Qlt, inject_Z_plus. change (inject_Z 1) with 1%Q.
    fold N. lra. }
  split; [lia|].
  rewrite Nat2Z.inj_sub, Z2Nat.id by lia.
  assert (H1 : (Z.of_nat n - t - u < 2)%Z).
  { rewrite Zlt_Qlt. unfold Z.sub.
    rewrite !inject_Z_plus, !inject_Z_opp. fold N.
    change (inject_Z 2) with 2%Q. lra. }
  assert (H2 : (-2 < Z.of_nat n - t - u)%Z).
  { rewrite Zlt_Qlt. unfold Z.sub.
    rewrite !inject_Z_plus, !inject_Z_opp. fold N.
    change (inject_Z (-2)) with (-2)%Q. lra. }
  lia.
Qed.

Lemma insert_at_Permutation {A} (i : nat) (x : A) (l : list A) :
  insert_at i x l ≡ₚ x :: l.
Proof.
  unfold insert_at. rewrite <- Permutation_middle. by rewrite take_drop.
Qed.

Lemma shuffle_rows_Permutation {A} (seed : list nat) (l : list A) :
  shuffle_rows seed l ≡ₚ l.
Proof.
  revert seed. induction l as [|x l IH]; intros seed; simpl; [done|].
  rewrite insert_at_Permutation. by rewrite IH.
Qed.

Context {cell : Type} {codec : CellCodec cell}.

Lemma label_items_index (i : nat) (rows : list (Z * list cell))
    (items : list (Z * cell)) :
  mapM (fun r : Z * list cell => c ← r.2 !! i; Some (r.1, c)) rows = Some items ->
  items.*1 = rows.*1.
Proof.
  rewrite mapM_Some. induction 1 as [|r it rows items Hr _ IH]; [done|].
  rewrite !fmap_cons. f_equal; [|done].
  destruct (r.2 !! i); simpl in Hr; [|done]. by injection Hr as <-.
Qed.

(** Taking the label column out keeps the rows and their index. *)
Lemma separate_label_index (df data : DataFrame cell) (labels : Series cell)
    (label : string) :
  separate_label df label = Some (data, labels) ->
  df_index data = df_index df /\ s_index labels = df_index df /\
  s_name labels = label.
Proof.
  unfold separate_label.
  destruct (list_find _ (df_columns df)) as [[i c]|]; simpl; [|done].
  destruct (mapM _ (df_rows df)) as [items|] eqn:Hm; simpl; [|done].
  intros [= <- <-]. unfold df_index, s_index. simpl.
  split; [|split; [by eapply label_items_index|done]].
  rewrite <- list_fmap_compose. by apply list_fmap_ext.
Qed.

(** On a rectangular frame that has the label column, the separation
    succeeds. *)
Lemma separate_label_succeeds (df : DataFrame cell) (label : string) :
  label ∈ df_columns df -> rectangular df ->
  is_Some (separate_label df label).
Proof.
  intros Hin Hrect. unfold separate_label.
  destruct (list_find (fun c => c = label) (df_columns df)) as [[i c]|] eqn:Hf.
  - simpl. apply list_find_Some in Hf as (Hi & _ & _).
    apply lookup_lt_Some in Hi.
    destruct (mapM (fun r : Z * list cell => c0 ← r.2 !! i; Some (r.1, c0))
                   (df_rows df)) as [items|] eqn:Hm; simpl; [by eexists|].
    exfalso. apply mapM_None, Exists_exists in Hm as (r & Hr & Hnone).
    unfold rectangular in Hrect. rewrite Forall_forall in Hrect.
    specialize (Hrect _ Hr).
    destruct (r.2 !! i) eqn:E; simpl in Hnone; [done|].
    apply lookup_ge_None in E. lia.
  - exfalso. apply list_find_None in Hf. rewrite Forall_forall in Hf.
    by apply (Hf label).
Qed.

Lemma rectangular_sub (cols : list string) (rows rows' : list (Z * list cell)) :
  rows' ⊆ rows -> rectangular (mk_frame cols rows) ->
  rectangular (mk_frame cols rows').
Proof.
  unfold rectangular. simpl. rewrite !Forall_forall. intros Hsub H r Hr.
  apply H, Hsub, Hr.
Qed.

(** What a split that returns has returned. *)
Lemma split_Return (mode : rounding) (table : DataFrame cell)
    (label : string) (rate : Q) (shuffle : bool) (seed : list nat)
    (td ted : DataFrame cell) (tl tel : Series cell) :
  split mode table label rate shuffle seed = Return (td, ted, tl, tel) ->
  exists rows,
    rows ≡ₚ df_rows table /\ (shuffle = false -> rows = df_rows table) /\
    (0 < rate /\ rate < 1)%Q /\
    let k := train_count mode (length rows) rate in
    separate_label (mk_frame (df_columns table) (take k rows)) label
      = Some (td, tl) /\
    separate_label (mk_frame (df_columns table) (drop k rows)) label
      = Some (ted, tel).
Proof.
  unfold split.
  destruct (in_unit_interval rate) eqn:Hrate; simpl; [|done].
  apply in_unit_interval_spec in Hrate.
  set (rows := if shuffle then shuffle_rows seed (df_rows table)
               else df_rows table).
  destruct (separate_label (mk_frame _ (take _ rows)) label)
    as [[d1 l1]|] eqn:E1; [|done].
  destruct (separate_label (mk_frame _ (drop _ rows)) label)
    as [[d2 l2]|] eqn:E2; [|done].
  intros [= <- <- <- <-]. exists rows. split.
  { subst rows. destruct shuffle; [apply shuffle_rows_Permutation|done]. }
  split; [by intros ->|]. done.
Qed.

(** C3.  For a rate strictly between 0 and 1 the split of a table that
    has the label column returns, the two parts have the rows of the
    table between them (the sum of the counts is the count of the
    table, and the index labels of the parts together are those of the
    table, so no row of a table with distinct index labels is in both
    parts), and the number of test rows is within one of
    [round(rows * test_rate)]. *)
Theorem split_partitions_rows (mode : rounding) (table : DataFrame cell)
    (label : string) (rate : Q) (shuffle : bool) (seed : list nat) :
  (0 < rate /\ rate < 1)%Q ->
  label ∈ df_columns table -> rectangular table ->
  exists td ted tl tel,
    split mode table label rate shuffle seed = Return (td, ted, tl, tel) /\
    df_len td + df_len ted = df_len table /\
    (Z.abs (Z.of_nat (df_len ted)
            - py_round (inject_Z (Z.of_nat (df_len table)) * rate)) <= 1)%Z /\
    df_index td ++ df_index ted ≡ₚ df_index table /\
    (NoDup (df_index table) ->
     forall k, k ∈ df_index td -> k ∉ df_index ted) /\
    s_index tl = df_index td /\ s_index tel = df_index ted.
Proof.
  intros Hrate Hlabel Hrect.
  assert (Hret : exists s, split mode table label rate shuffle seed = Return s).
  { unfold split.
    rewrite (proj2 (in_unit_interval_spec rate) Hrate). simpl.
    set (rows := if shuffle then shuffle_rows seed (df_rows table)
                 else df_rows table).
    assert (Hsub : rows ⊆ df_rows table).
    { subst rows. destruct shuffle; [|done].
      intros r Hr. by rewrite <- (shuffle_rows_Permutation seed). }
    set (k := train_count mode (length rows) rate).
    destruct (separate_label_succeeds (mk_frame (df_columns table) (take k rows)) label)
      as [[d1 l1] ->]; [done| |].
    { destruct table. eapply rectangular_sub; [|exact Hrect].
      intros r Hr. apply Hsub. by eapply subseteq_take. }
    destruct (separate_label_succeeds (mk_frame (df_columns table) (drop k rows)) label)
      as [[d2 l2] ->]; [done| |].
    { destruct table. eapply rectangular_sub; [|exact Hrect].
      intros r Hr. apply Hsub. by eapply subseteq_drop. }
    by eexists. }
  destruct Hret as [[[[td ted] tl] tel] Hret].
  exists td, ted, tl, tel. split; [done|].
  apply split_Return in Hret as (rows & Hperm & _ & _ & H1 & H2).
  apply separate_label_index in H1 as (I1 & L1 & _).
  apply separate_label_index in H2 as (I2 & L2 & _).
  unfold df_index in *. simpl in *.
  assert (Hlen : length rows = df_len table)
    by (unfold df_len; by rewrite Hperm).
  destruct (test_count_close mode (length rows) rate Hrate) as [Hk Hclose].
  set (k := train_count mode (length rows) rate) in *.
  assert (Hd1 : df_len td = k).
  { unfold df_len. rewrite <- (length_fmap fst), I1, length_fmap, length_take. lia. }
  assert (Hd2 : df_len ted = length rows - k).
  { unfold df_len. rewrite <- (length_fmap fst), I2, length_fmap, length_drop. lia. }
  split; [lia|]. split; [by rewrite Hd2, <- Hlen|].
  assert (Hparts : (df_rows td).*1 ++ (df_rows ted).*1 ≡ₚ (df_rows table).*1).
  { rewrite I1, I2, <- fmap_app, take_drop. by rewrite Hperm. }
  split; [done|]. split; [|by rewrite L1, L2].
  intros Hnd key Hin1 Hin2.
  rewrite <- Hparts in Hnd. apply NoDup_app in Hnd as (_ & Hdisj & _).
  by apply (Hdisj key).
Qed.

End SplitCounts.

(* ===================================================================== *)
(** * Paths and writes                                                    *)
(* ===================================================================== *)

Section Paths.

Import OS.

(** [join] with a relative last component puts a prefix that depends on
    the directory only in front of it. *)
Lemma join_relative (d : string) :
  exists pre,
    String.length d <= String.length pre /\
    forall n, startswith_char SLASH n = false -> join d n = pre +:+ n.
Proof.
  unfold join.
  destruct (String.eqb d EmptyString || endswith_char SLASH d).
  - exists d. split; [done|]. by intros n ->.
  - exists (d +:+ String SLASH EmptyString). split.
    + rewrite length_app_string. lia.
    + intros n ->. by rewrite string_app_assoc.
Qed.

Lemma join_ne_dir (d n : string) :
  startswith_char SLASH n = false -> n <> EmptyString -> join d n <> d.
Proof.
  intros Hn Hne E. destruct (join_relative d) as (pre & Hlen & Hjoin).
  rewrite Hjoin in E by done. apply (f_equal String.length) in E.
  rewrite length_app_string in E. destruct n; [done|]. simpl in E. lia.
Qed.

Lemma join_inj (d n n' : string) :
  startswith_char SLASH n = false -> startswith_char SLASH n' = false ->
  join d n = join d n' -> n = n'.
Proof.
  intros Hn Hn' E. destruct (join_relative d) as (pre & _ & Hjoin).
  rewrite !Hjoin in E by done. by apply string_app_inj in E as [_ ?].
Qed.

Lemma length_join (d n n' : string) :
  startswith_char SLASH n = false -> startswith_char SLASH n' = false ->
  String.length (join d n) + String.length n'
  = String.length (join d n') + String.length n.
Proof.
  intros Hn Hn'. destruct (join_relative d) as (pre & _ & Hjoin).
  rewrite !Hjoin, !length_app_string by done. lia.
Qed.

Lemma length_rstrip_slash (s : string) :
  String.length (rstrip_slash s) <= String.length s.
Proof.
  induction s as [|c s IH]; simpl; [done|].
  destruct (rstrip_slash s); [destruct (Ascii.eqb c SLASH)|]; simpl in *; lia.
Qed.

Lemma length_split_raw (p : string) :
  String.length (split_raw p).1 <= String.length p.
Proof.
  induction p as [|c p IH]; simpl; [done|].
  destruct (contains_char SLASH p).
  - destruct (split_raw p) as [h t]. simpl in *. lia.
  - destruct (Ascii.eqb c SLASH); simpl; lia.
Qed.

(** The directory part of a path is not longer than the path. *)
Lemma length_split (p : string) :
  String.length (split p).1 <= String.length p.
Proof.
  unfold split. pose proof (length_split_raw p) as H.
  destruct (split_raw p) as [h t]. simpl in H.
  pose proof (length_rstrip_slash h).
  destruct (rstrip_slash h); simpl in *; lia.
Qed.

Lemma split_raw_relative (n : string) :
  contains_char SLASH n = false -> split_raw n = (EmptyString, n).
Proof.
  destruct n as [|c n]; simpl; [done|].
  intros [Hc Hn]%orb_false_elim. by rewrite Hn, Hc.
Qed.

Lemma split_raw_join (d n : string) :
  contains_char SLASH n = false ->
  split_raw (d +:+ String SLASH n) = (d +:+ String SLASH EmptyString, n).
Proof.
  intros Hn. induction d as [|c d IH].
  - rewrite !string_app_nil_l. simpl. by rewrite Hn, ?Ascii.eqb_refl.
  - rewrite !string_app_cons. simpl.
    rewrite contains_char_app. simpl.
    rewrite ?Ascii.eqb_refl, ?orb_true_r. by rewrite IH.
Qed.

Lemma rstrip_slash_join (d : string) :
  d <> EmptyString -> endswith_char SLASH d = false ->
  rstrip_slash (d +:+ String SLASH EmptyString) = d.
Proof.
  induction d as [|c d IH]; [done|]. intros _ Hend.
  rewrite string_app_cons. simpl.
  destruct d as [|c' d].
  - rewrite string_app_nil_l. simpl. rewrite ?Ascii.eqb_refl.
    simpl in Hend. by rewrite Hend.
  - rewrite IH; [done|done|]. exact Hend.
Qed.

(** A file put into a directory whose path does not end with a
    separator has that directory as its parent. *)
Lemma split_join (d n : string) :
  endswith_char SLASH d = false -> contains_char SLASH n = false ->
  n <> EmptyString ->
  split (join d n) = (d, n).
Proof.
  intros Hd Hn Hne. unfold join.
  assert (startswith_char SLASH n = false) as ->.
  { destruct n; [done|]. simpl in *. by apply orb_false_elim in Hn as [? _]. }
  rewrite Hd, orb_false_r. unfold split.
  destruct (String.eqb_spec d EmptyString) as [->|Hne'].
  - rewrite string_app_nil_l, split_raw_relative by done. done.
  - rewrite split_raw_join by done. rewrite rstrip_slash_join by done.
    by destruct d.
Qed.

Lemma endswith_contains (d : string) :
  endswith_char SLASH d = true -> contains_char SLASH d = true.
Proof.
  induction d as [|c d IH]; [done|]. simpl.
  destruct d as [|c' d]; [by intros ->|].
  intros H. rewrite (IH H). apply orb_true_r.
Qed.

Lemma split_raw_dir (d n : string) :
  endswith_char SLASH d = true -> contains_char SLASH n = false ->
  split_raw (d +:+ n) = (d, n).
Proof.
  intros Hd Hn. induction d as [|c d IH]; [done|].
  rewrite string_app_cons. cbn [split_raw]. destruct d as [|c' d].
  - rewrite string_app_nil_l, Hn. simpl in Hd. by rewrite Hd.
  - assert (Hd' : endswith_char SLASH (String c' d) = true) by exact Hd.
    rewrite contains_char_app, (endswith_contains _ Hd'). cbn [orb].
    by rewrite (IH Hd').
Qed.

Lemma endswith_rstrip_slash (d : string) :
  endswith_char SLASH (rstrip_slash d) = false.
Proof.
  induction d as [|c d IH]; [done|]. simpl.
  destruct (rstrip_slash d) as [|c' r] eqn:E.
  - by destruct (Ascii.eqb c SLASH) eqn:Hc.
  - exact IH.
Qed.

Lemma rstrip_slash_empty (d : string) :
  rstrip_slash d = EmptyString ->
  d = EmptyString \/ endswith_char SLASH d = true.
Proof.
  induction d as [|c d IH]; [by left|]. simpl.
  destruct (rstrip_slash d) as [|c' r] eqn:E; [|done].
  destruct (Ascii.eqb c SLASH) eqn:Hc; [|done]. intros _. right.
  destruct (IH eq_refl) as [->|H]; [done|]. by destruct d.
Qed.

(** A file put into a directory, however its path is spelt at the end,
    has the directory as the file system names it as its parent. *)
Lemma split_join_normdir (d n : string) :
  contains_char SLASH n = false -> n <> EmptyString ->
  split (join (normdir d) n) = (normdir d, n).
Proof.
  intros Hn Hne. unfold normdir.
  destruct (rstrip_slash d) as [|c r] eqn:E.
  - apply rstrip_slash_empty in E as Hd. destruct Hd as [->|Hd].
    + by apply split_join.
    + unfold join.
      assert (startswith_char SLASH n = false) as ->.
      { destruct n; [done|]. simpl in *.
        by apply orb_false_elim in Hn as [? _]. }
      rewrite Hd, orb_true_r. unfold split.
      by rewrite split_raw_dir, E.
  - apply split_join; [|done|done].
    rewrite <- E. apply endswith_rstrip_slash.
Qed.

End Paths.

(* ===================================================================== *)
(** * Delimited text: what is written is what is read                     *)
(* ===================================================================== *)

Section Csv.

Import OS Pandas.

Lemma lines_from_line (cur l rest : string) :
  contains_char LF l = false -> contains_char CR l = false ->
  lines_from cur (l +:+ String LF rest)
  = (cur +:+ l) :: lines_from EmptyString rest.
Proof.
  revert cur. induction l as [|c l IH]; intros cur Hlf Hcr.
  - rewrite string_app_nil_l, string_app_nil_r. simpl.
    by rewrite ?Ascii.eqb_refl.
  - simpl in Hlf, Hcr.
    apply orb_false_elim in Hlf as [Hc1 Hlf].
    apply orb_false_elim in Hcr as [Hc2 Hcr].
    rewrite string_app_cons. simpl. rewrite Hc1, Hc2.
    rewrite IH by done. by rewrite string_app_assoc.
Qed.

Lemma text_lines_of_lines (ls : list string) :
  Forall (fun l => contains_char LF l = false /\ contains_char CR l = false) ls ->
  text_lines (foldr String.append EmptyString
                (map (fun l => l +:+ String LF EmptyString) ls)) = ls.
Proof.
  unfold text_lines. induction 1 as [|l ls [Hlf Hcr] _ IH]; [done|].
  simpl. rewrite string_app_assoc, string_app_cons, string_app_nil_l.
  rewrite lines_from_line by done. by rewrite IH, string_app_nil_l.
Qed.

Lemma fields_from_last (cur f : string) :
  contains_char COMMA f = false -> fields_from cur f = [cur +:+ f].
Proof.
  revert cur. induction f as [|c f IH]; intros cur Hf.
  - by rewrite string_app_nil_r.
  - simpl in Hf. apply orb_false_elim in Hf as [Hc Hf].
    simpl. rewrite Hc, IH by done. by rewrite string_app_assoc.
Qed.

Lemma fields_from_field (cur f rest : string) :
  contains_char COMMA f = false ->
  fields_from cur (f +:+ String COMMA rest)
  = (cur +:+ f) :: fields_from EmptyString rest.
Proof.
  revert cur. induction f as [|c f IH]; intros cur Hf.
  - rewrite string_app_nil_l, string_app_nil_r. simpl.
    by rewrite ?Ascii.eqb_refl.
  - simpl in Hf. apply orb_false_elim in Hf as [Hc Hf].
    rewrite string_app_cons. simpl. rewrite Hc, IH by done.
    by rewrite string_app_assoc.
Qed.

Lemma join_fields_cons (f : string) (fs : list string) :
  fs <> [] ->
  join_fields (f :: fs) = f +:+ String COMMA (join_fields fs).
Proof. destruct fs; [done|]. intros _. reflexivity. Qed.

Lemma split_join_fields (fs : list string) :
  fs <> [] -> Forall (fun f => contains_char COMMA f = false) fs ->
  split_fields (join_fields fs) = fs.
Proof.
  unfold split_fields. intros Hne Hfs.
  induction Hfs as [|f fs Hf Hfs IH]; [done|].
  destruct fs as [|g fs].
  - simpl. by rewrite fields_from_last, string_app_nil_l.
  - rewrite join_fields_cons, fields_from_field by done.
    rewrite string_app_nil_l. by rewrite IH.
Qed.

Lemma plain_spec (s : string) :
  plain s = true <->
  s <> EmptyString /\ contains_char COMMA s = false /\
  contains_char LF s = false /\ contains_char CR s = false /\
  contains_char QUOTE s = false.
Proof.
  unfold plain. rewrite !andb_true_iff, !negb_true_iff, String.eqb_neq.
  tauto.
Qed.

Lemma join_fields_contains (c : ascii) (fs : list string) :
  Ascii.eqb COMMA c = false ->
  Forall (fun f => contains_char c f = false) fs ->
  contains_char c (join_fields fs) = false.
Proof.
  intros Hc. induction 1 as [|f fs Hf Hfs IH]; [done|].
  destruct fs as [|g fs]; [done|].
  rewrite join_fields_cons by done.
  rewrite contains_char_app. cbn [contains_char]. by rewrite Hf, Hc, IH.
Qed.

Lemma join_fields_nonempty (fs : list string) :
  fs <> [] -> Forall (fun f => f <> EmptyString) fs ->
  join_fields fs <> EmptyString.
Proof.
  intros Hne Hfs. destruct Hfs as [|f fs Hf Hfs]; [done|].
  destruct fs as [|g fs]; [done|].
  rewrite join_fields_cons by done. destruct f; [done|].
  by rewrite string_app_cons.
Qed.

(** A line made of plain fields is one line, not blank, and splits back
    into its fields. *)
Lemma plain_line (fs : list string) :
  fs <> [] -> Forall (fun f => plain f = true) fs ->
  join_fields fs <> EmptyString /\
  contains_char LF (join_fields fs) = false /\
  contains_char CR (join_fields fs) = false /\
  split_fields (join_fields fs) = fs.
Proof.
  intros Hne Hfs.
  assert (Hall : Forall (fun f =>
            f <> EmptyString /\ contains_char COMMA f = false /\
            contains_char LF f = false /\ contains_char CR f = false /\
            contains_char QUOTE f = false) fs).
  { eapply Forall_impl; [exact Hfs|]. intros f. apply plain_spec. }
  split; [|split; [|split]].
  - apply join_fields_nonempty; [done|].
    eapply Forall_impl; [exact Hall|]. by intros f (? & ? & ? & ? & ?).
  - apply join_fields_contains; [done|].
    eapply Forall_impl; [exact Hall|]. by intros f (? & ? & ? & ? & ?).
  - apply join_fields_contains; [done|].
    eapply Forall_impl; [exact Hall|]. by intros f (? & ? & ? & ? & ?).
  - apply split_join_fields; [done|].
    eapply Forall_impl; [exact Hall|]. by intros f (? & ? & ? & ? & ?).
Qed.

(** Lines that were written from as many fields as the table has
    columns are read as they are. *)
Lemma pad_rows_back (width : nat) (rows : list (list string)) :
  width <> 0 ->
  Forall (fun r => length r = width /\ Forall (fun f => plain f = true) r)
         rows ->
  omapM (pad_row width) (map join_fields rows) = Return rows.
Proof.
  intros Hw. induction 1 as [|r rows [Hlen Hr] _ IH]; [done|].
  simpl. rewrite IH. unfold pad_row.
  assert (Hne : r <> []) by (destruct r; [simpl in *; lia|done]).
  destruct (plain_line _ Hne Hr) as (_ & _ & _ & ->).
  rewrite Hlen, Nat.ltb_irrefl, Nat.sub_diag. simpl.
  by rewrite app_nil_r.
Qed.

Context {cell : Type} {codec : CellCodec cell}.

(** The text of a frame, line by line. *)
Lemma to_csv_lines (df : DataFrame cell) :
  to_csv df
  = foldr String.append EmptyString
      (map (fun l => l +:+ String LF EmptyString)
           (join_fields (df_columns df)
            :: map join_fields (map (map cell_to_text) (df_values df)))).
Proof.
  unfold to_csv, df_values. simpl. do 2 f_equal.
  rewrite !map_map. apply map_ext. by intros r.
Qed.

(** When no column name and no value holds a line terminator, the text
    of a frame has the header and one line per row. *)
Lemma text_lines_to_csv (df : DataFrame cell) :
  Forall (fun name => contains_char LF name = false /\
                      contains_char CR name = false) (df_columns df) ->
  Forall (fun r : Z * list cell =>
            Forall (fun c => contains_char LF (cell_to_text c) = false /\
                             contains_char CR (cell_to_text c) = false) r.2)
         (df_rows df) ->
  text_lines (to_csv df)
  = join_fields (df_columns df)
    :: map join_fields (map (map cell_to_text) (df_values df)).
Proof.
  intros Hnames Hcells. rewrite to_csv_lines.
  apply text_lines_of_lines. constructor.
  - split; (apply join_fields_contains; [done|]);
      (eapply Forall_impl; [exact Hnames|]); by intros name [? ?].
  - unfold df_values. rewrite !Forall_fmap.
    eapply Forall_impl; [exact Hcells|]. intros r Hr. simpl.
    split; (apply join_fields_contains; [done|]); rewrite Forall_fmap;
      (eapply Forall_impl; [exact Hr|]); by intros c [? ?].
Qed.

(** Reading the text of a faithful frame gives back its columns and
    its values, row for row, on a fresh range index. *)
Lemma read_csv_to_csv (df : DataFrame cell) :
  csv_faithful df ->
  read_csv_text (to_csv df) = Return (reset_index df).
Proof.
  intros (Hne & _ & Hnames & Hrect & Hcells & Htyped).
  unfold read_csv_text.
  set (texts := map (map cell_to_text) (df_values df)) in *.
  assert (Hwidth : length (df_columns df) <> 0)
    by (by destruct (df_columns df)).
  assert (Htexts : Forall (fun r => length r = length (df_columns df) /\
                                    Forall (fun f => plain f = true) r)
                          texts).
  { subst texts. unfold df_values. rewrite !Forall_fmap.
    unfold rectangular in Hrect. rewrite Forall_forall in *.
    intros r Hr. simpl. rewrite length_map, Forall_fmap.
    split; [by apply Hrect|by apply Hcells]. }
  assert (Hlines : Forall (fun l => l <> EmptyString) (map join_fields texts)).
  { rewrite Forall_fmap. eapply Forall_impl; [exact Htexts|].
    intros r [Hlen Hr]. simpl.
    assert (r <> []) as Hr0 by (destruct r; [simpl in *; lia|done]).
    by destruct (plain_line _ Hr0 Hr) as (? & _). }
  destruct (plain_line _ Hne Hnames) as (Hh1 & _ & _ & Hh4).
  rewrite text_lines_to_csv.
  - fold texts. rewrite filter_cons_True by done.
    assert (filter (fun l : string => l <> EmptyString) (map join_fields texts)
            = map join_fields texts) as ->.
    { clear -Hlines. induction Hlines as [|l ls Hl _ IH]; [done|].
      rewrite filter_cons_True by done. by rewrite IH. }
    rewrite Hh4, pad_rows_back by done. simpl.
    unfold reset_index. by rewrite Htyped.
  - eapply Forall_impl; [exact Hnames|]. intros name Hn.
    apply plain_spec in Hn. tauto.
  - eapply Forall_impl; [exact Hcells|]. intros r Hr.
    eapply Forall_impl; [exact Hr|]. intros c Hc.
    apply plain_spec in Hc. tauto.
Qed.

Lemma values_of_indexed {A} (g : nat -> Z) (rows : list A) :
  (imap (fun i r => (g i, r)) rows).*2 = rows.
Proof.
  revert g. induction rows as [|r rows IH]; intros g; [done|].
  simpl. f_equal. apply (IH (fun i => g (S i))).
Qed.

Lemma reset_index_values (df : DataFrame cell) :
  df_columns (reset_index df) = df_columns df /\
  df_values (reset_index df) = df_values df.
Proof. split; [done|]. apply values_of_indexed. Qed.

Lemma reset_series_index_values (s : Series cell) :
  s_name (reset_series_index s) = s_name s /\
  s_values (reset_series_index s) = s_values s.
Proof. split; [done|]. apply values_of_indexed. Qed.

End Csv.

(* ===================================================================== *)
(** * Snapshots on the file system                                        *)
(* ===================================================================== *)

Section Snapshots.

Import OS Pandas Clock Runtime FileUtil DataProcess.

(** A write either fails and changes nothing, or puts the file in place
    and lists it in its directory, which is another path. *)
Lemma write_text_inv (path text : string) (fs fs' : filesystem)
    (o : outcome unit) :
  write_text path text fs = (o, fs') ->
  (raised o /\ fs' = fs) \/
  (o = Return tt /\
   exists entries,
     path <> (OS.split path).1 /\ (OS.split path).2 ∈ entries /\
     isdir fs path = false /\
     fs' = <[path := File text]> (<[(OS.split path).1 := Dir entries]> fs)).
Proof.
  unfold write_text. destruct (OS.split path) as [parent name] eqn:Hs. simpl.
  assert (Hok : forall entries,
            fs !! parent = Some (Dir entries) ->
            (forall es, fs !! path <> Some (Dir es)) ->
            let entries' := if bool_decide (name ∈ entries) then entries
                            else entries ++ [name] in
            path <> parent /\ name ∈ entries').
  { intros entries Hp Hnd. split; [intros ->; by eapply Hnd|].
    case_bool_decide; [done|]. apply elem_of_app. right. by left. }
  destruct (fs !! path) as [[c|es|]|] eqn:Hpath;
    try (intros [= <- <-]; by left);
    (destruct (fs !! parent) as [[c'|entries|]|] eqn:Hparent;
     try (intros [= <- <-]; by left);
     intros [= <- <-]; right; (split; [done|]);
     eexists; (destruct (Hok entries eq_refl) as [? ?]; [by intros es'|]);
     unfold isdir; by rewrite Hpath).
Qed.

Lemma TRAIN_relative :
  startswith_char SLASH TRAIN = false /\ contains_char SLASH TRAIN = false /\
  TRAIN <> EmptyString.
Proof. done. Qed.

Lemma TEST_relative :
  startswith_char SLASH TEST = false /\ contains_char SLASH TEST = false /\
  TEST <> EmptyString.
Proof. done. Qed.

Lemma train_ne_test_parent (d : string) :
  join d TRAIN <> (OS.split (join d TEST)).1.
Proof.
  intros E. pose proof (length_split (join d TEST)) as H. rewrite <- E in H.
  pose proof (length_join d TRAIN TEST ltac:(done) ltac:(done)) as H'.
  simpl in H'. lia.
Qed.

Context {cell : Type} {codec : CellCodec cell}.

(** What a snapshot that was persisted has left on the file system:
    the two tables as files, and a directory that is not empty. *)
Lemma persist_snapshot_Return
    (td : DataFrame cell) (tl : Series cell)
    (ted : DataFrame cell) (tel : Series cell)
    (label dir : string) (fs fs' : filesystem) (d : string) :
  persist_snapshot td tl ted tel label dir fs = (Return d, fs') ->
  d = dir /\
  fs' !! join (normdir dir) TRAIN
    = Some (File (to_csv (recombine td tl label))) /\
  fs' !! join (normdir dir) TEST
    = Some (File (to_csv (recombine ted tel label))) /\
  exists e es, fs' !! normdir dir = Some (Dir (e :: es)).
Proof.
  unfold persist_snapshot, dataframe2csv.
  set (target := normdir dir).
  set (fs0 := match fs !! target with None => mkdir target fs | Some _ => fs end).
  assert (Hcases :
    (let r :=
       match write_text (join target TRAIN) (to_csv (recombine td tl label)) fs0 with
       | (Raise e, fs1) => (Raise e, fs1)
       | (Return _, fs1) =>
           match write_text (join target TEST) (to_csv (recombine ted tel label)) fs1 with
           | (Raise e, fs2) => (Raise e, fs2)
           | (Return _, fs2) => (Return dir, fs2)
           end
       end in
     r = (Return d, fs') ->
     d = dir /\
     fs' !! join target TRAIN = Some (File (to_csv (recombine td tl label))) /\
     fs' !! join target TEST = Some (File (to_csv (recombine ted tel label))) /\
     exists e es, fs' !! target = Some (Dir (e :: es)))).
  { simpl.
    destruct (write_text (join target TRAIN) _ fs0) as [o1 fs1] eqn:W1.
    apply write_text_inv in W1 as [[Hr ->]|(-> & es1 & Hne1 & Hin1 & _ & ->)];
      [by destruct o1|].
    destruct (write_text (join target TEST) _ _) as [o2 fs2] eqn:W2.
    apply write_text_inv in W2 as [[Hr ->]|(-> & es2 & Hne2 & Hin2 & _ & ->)];
      [by destruct o2|].
    intros [= <- <-]. split; [done|]. split; [|split].
    - rewrite lookup_insert_ne
        by (intros E; by apply join_inj in E).
      rewrite lookup_insert_ne by (intros E; symmetry in E; by apply train_ne_test_parent in E).
      by rewrite lookup_insert_eq.
    - by rewrite lookup_insert_eq.
    - subst target.
      rewrite (split_join_normdir dir TEST) in * by done. simpl in *.
      rewrite lookup_insert_ne by (by apply join_ne_dir).
      rewrite lookup_insert_eq. destruct es2; [by apply elem_of_nil in Hin2|].
      by eexists _, _. }
  destruct (fs !! target) as [[c|[|e es]|]|] eqn:Hdir; try done; apply Hcases.
Qed.

(** C4.  [persist_snapshot] creates the directory when it is absent; on a
    directory that exists and is not empty it raises [IOError] and leaves
    the file system as it was; and after a call that has persisted a
    snapshot, a second call at the same directory path, whichever it
    is, is such a failure, so the two tables of the first call are
    still in place.  The directory is looked up under the name the file
    system has for it, the path without trailing separators. *)
Theorem persist_snapshot_never_overwrites
    (td : DataFrame cell) (tl : Series cell)
    (ted : DataFrame cell) (tel : Series cell)
    (label dir : string) (fs : filesystem) :
  let target := normdir dir in
  (fs !! target = None ->
   isdir (persist_snapshot td tl ted tel label dir fs).2 target = true) /\
  (forall e es, fs !! target = Some (Dir (e :: es)) ->
     persist_snapshot td tl ted tel label dir fs = (Raise IOError, fs)) /\
  (forall fs1 d,
     persist_snapshot td tl ted tel label dir fs = (Return d, fs1) ->
     forall (td' : DataFrame cell) (tl' : Series cell)
            (ted' : DataFrame cell) (tel' : Series cell) (label' : string),
       persist_snapshot td' tl' ted' tel' label' dir fs1 = (Raise IOError, fs1) /\
       fs1 !! join target TRAIN = Some (File (to_csv (recombine td tl label))) /\
       fs1 !! join target TEST = Some (File (to_csv (recombine ted tel label)))).
Proof.
  intros target. split; [|split].
  - intros Hdir. unfold persist_snapshot, dataframe2csv. fold target.
    rewrite Hdir.
    assert (H0 : isdir (mkdir target fs) target = true).
    { unfold isdir, mkdir. destruct (OS.split target) as [parent name].
      by rewrite lookup_insert_eq. }
    assert (Hstep : forall path text fs0,
              isdir fs0 target = true ->
              isdir (write_text path text fs0).2 target = true).
    { intros path text fs0 Hd.
      destruct (write_text path text fs0) as [o fs1] eqn:W.
      apply write_text_inv in W as [[_ ->]|(_ & es & Hne & _ & Hfile & ->)];
        [done|].
      simpl. unfold isdir in *.
      destruct (decide (path = target)) as [->|Hp]; [congruence|].
      - rewrite lookup_insert_ne by done.
        destruct (decide ((OS.split path).1 = target)) as [->|Hq];
          [by rewrite lookup_insert_eq|by rewrite lookup_insert_ne]. }
    pose proof (Hstep (join target TRAIN) (to_csv (recombine td tl label)) _ H0) as H1.
    destruct (write_text (join target TRAIN) _ (mkdir target fs)) as [[[]|e1] fs1]; [|done].
    simpl in H1.
    pose proof (Hstep (join target TEST) (to_csv (recombine ted tel label)) _ H1) as H2.
    by destruct (write_text (join target TEST) _ fs1) as [[[]|e2] fs2].
  - intros e es Hdir. unfold persist_snapshot. fold target. by rewrite Hdir.
  - intros fs1 d Hret td' tl' ted' tel' label'.
    apply persist_snapshot_Return in Hret as (_ & Htrain & Htest & e & es & Hne).
    split; [|done]. unfold persist_snapshot. by rewrite Hne.
Qed.

End Snapshots.

(* ===================================================================== *)
(** * Recombining and separating the label column                         *)
(* ===================================================================== *)

Section Recombine.

Import OS Pandas Clock Runtime FileUtil DataProcess.

Context {cell : Type} {codec : CellCodec cell}.






End Recombine.

(* ===================================================================== *)
(** * Integers and words, written and read back                           *)
(* ===================================================================== *)

Section Cells.

Import OS Pandas.

Lemma all_chars_impl (p q : ascii -> bool) (s : string) :
  (forall c, p c = true -> q c = true) ->
  all_chars p s = true -> all_chars q s = true.
Proof.
  intros Hpq. induction s as [|c s IH]; [done|]. simpl.
  intros [Hc Hs]%andb_true_iff. by rewrite (Hpq _ Hc), IH.
Qed.

Lemma all_chars_contains (p : ascii -> bool) (c : ascii) (s : string) :
  p c = false -> all_chars p s = true -> contains_char c s = false.
Proof.
  intros Hc. induction s as [|a s IH]; [done|]. simpl.
  intros [Ha Hs]%andb_true_iff. rewrite (IH Hs), orb_false_r.
  destruct (Ascii.eqb_spec a c) as [->|]; [congruence|done].
Qed.

Lemma rstrip_id (s : string) :
  all_chars (fun c => negb (is_space c)) s = true -> rstrip s = s.
Proof.
  induction s as [|c s IH]; [done|]. simpl.
  intros [Hc Hs]%andb_true_iff. rewrite (IH Hs).
  destruct s; [|done]. by destruct (is_space c).
Qed.

Lemma strip_id (s : string) :
  all_chars (fun c => negb (is_space c)) s = true -> strip s = s.
Proof.
  intros Hs. unfold strip.
  assert (lstrip s = s) as ->; [|by apply rstrip_id].
  destruct s as [|c s]; [done|]. simpl in *.
  apply andb_true_iff in Hs as [Hc _]. by destruct (is_space c).
Qed.

(** A text that has none of the characters [to_csv] would quote, and is
    not blank, is a plain field. *)
Lemma all_chars_plain (p : ascii -> bool) (s : string) :
  p COMMA = false -> p LF = false -> p CR = false -> p QUOTE = false ->
  s <> EmptyString -> all_chars p s = true -> plain s = true.
Proof.
  intros H1 H2 H3 H4 Hne Hs. apply plain_spec.
  split; [done|]. repeat split; by eapply all_chars_contains.
Qed.

Lemma forallb_elem {A} (p : A -> bool) (l : list A) (x : A) :
  x ∈ l -> forallb p l = true -> p x = true.
Proof.
  induction 1 as [x l|x y l _ IH]; simpl; intros [? ?]%andb_true_iff; auto.
Qed.

Lemma forallb_Forall {A} (p : A -> bool) (l : list A) :
  Forall (fun x => p x = true) l -> forallb p l = true.
Proof. induction 1 as [|x l Hx _ IH]; [done|]. simpl. by rewrite Hx, IH. Qed.

(** ** Integers *)

Lemma digits_chars (d : Decimal.uint) :
  all_chars is_digit (NilEmpty.string_of_uint d) = true.
Proof. induction d; done. Qed.

Lemma int_text_chars (z : Z) :
  all_chars int_char (scalar_to_text (SInt z)) = true /\
  exists c r, scalar_to_text (SInt z) = String c r.
Proof.
  assert (Hu : forall d, all_chars int_char (NilZero.string_of_uint d) = true /\
                         exists c r, NilZero.string_of_uint d = String c r).
  { intros d. split.
    - destruct d; try done;
        (eapply all_chars_impl; [|apply digits_chars]);
        intros c Hc; unfold int_char; by rewrite Hc.
    - destruct d; simpl; eauto. }
  simpl. destruct (Z.to_int z) as [d|d]; simpl.
  - apply Hu.
  - split; [|eauto]. apply (Hu d).
Qed.

Lemma int_char_spec (c : ascii) :
  int_char c = true ->
  is_space c = false /\ Ascii.eqb c "+" = false /\
  Ascii.eqb c COMMA = false /\ Ascii.eqb c LF = false /\
  Ascii.eqb c CR = false /\ Ascii.eqb c QUOTE = false.
Proof.
  destruct c as [[] [] [] [] [] [] [] []]; intros H; try discriminate H;
    done.
Qed.

Lemma int_text_plain (z : Z) : plain (scalar_to_text (SInt z)) = true.
Proof.
  destruct (int_text_chars z) as [Hchars (c & r & E)].
  apply (all_chars_plain int_char); try done. by rewrite E.
Qed.

(** The text of an integer is read as that integer. *)
Lemma parse_int_text (z : Z) : parse_int (scalar_to_text (SInt z)) = Some z.
Proof.
  destruct (int_text_chars z) as [Hchars (c & r & E)].
  unfold parse_int. rewrite strip_id.
  2:{ eapply all_chars_impl; [|exact Hchars].
      intros a Ha. by destruct (int_char_spec a Ha) as (-> & _). }
  rewrite E. rewrite E in Hchars. simpl in Hchars.
  apply andb_true_iff in Hchars as [Hc _].
  destruct (int_char_spec c Hc) as (_ & -> & _).
  rewrite <- E. simpl.
  assert (Z.to_int z <> Decimal.Pos Decimal.Nil /\
          Z.to_int z <> Decimal.Neg Decimal.Nil) as [H1 H2].
  { destruct z as [|q|q]; simpl; split; try done;
      intros [= H]; by apply DecimalPos.Unsigned.to_uint_nonnil in H. }
  rewrite NilZero.isi by done. simpl. by rewrite DecimalZ.of_to.
Qed.

Lemma is_na_not_int (s : string) : is_na s = true -> parse_int s = None.
Proof.
  unfold is_na. intros H%bool_decide_eq_true.
  repeat (apply elem_of_cons in H as [->|H]; [reflexivity|]).
  by apply elem_of_nil in H.
Qed.

Lemma int_text_not_na (z : Z) : is_na (scalar_to_text (SInt z)) = false.
Proof.
  destruct (is_na (scalar_to_text (SInt z))) eqn:E; [|done].
  apply is_na_not_int in E. by rewrite parse_int_text in E.
Qed.

(** ** Words *)

Lemma word_char_spec (c : ascii) :
  is_word_char c = true ->
  is_space c = false /\
  Ascii.eqb c COMMA = false /\ Ascii.eqb c LF = false /\
  Ascii.eqb c CR = false /\ Ascii.eqb c QUOTE = false.
Proof.
  destruct c as [[] [] [] [] [] [] [] []]; intros H; try discriminate H;
    done.
Qed.

Lemma word_start_spec (c : ascii) :
  (is_alpha c || Ascii.eqb c "_") = true ->
  is_digit c = false /\ Ascii.eqb c "+" = false /\
  Ascii.eqb c "-" = false /\ Ascii.eqb c "." = false.
Proof.
  destruct c as [[] [] [] [] [] [] [] []]; intros H; try discriminate H;
    done.
Qed.

Lemma uint_of_char_other (c : ascii) (d : option Decimal.uint) :
  is_digit c = false -> uint_of_char c d = None.
Proof.
  destruct d as [d|]; [|done].
  destruct c as [[] [] [] [] [] [] [] []]; intros H; try discriminate H;
    done.
Qed.

Lemma safe_word_not_in (l : list string) (w : string) :
  forallb (fun v => negb (safe_word v)) l = true ->
  safe_word w = true -> w ∉ l.
Proof.
  intros Hl Hw Hin. apply (forallb_elem _ _ _ Hin) in Hl.
  simpl in Hl. by rewrite Hw in Hl.
Qed.

(** What a word is for the reader: a plain field that is no number, no
    boolean and no missing value. *)
Lemma safe_word_spec (w : string) :
  safe_word w = true ->
  plain w = true /\ is_na w = false /\ int_like w = false /\
  float_like w = false /\ bool_like w = false.
Proof.
  intros Hw. pose proof Hw as Hsafe. unfold safe_word in Hw.
  apply andb_true_iff in Hw as [Hword Hres].
  apply negb_true_iff, bool_decide_eq_false in Hres.
  destruct w as [|c r]; [done|]. simpl in Hword.
  apply andb_true_iff in Hword as [Hstart Hchars].
  destruct (word_start_spec c Hstart) as (Hdigit & Hplus & Hminus & Hdot).
  assert (Hstrip : strip (String c r) = String c r).
  { apply strip_id. eapply all_chars_impl; [|exact Hchars].
    intros a Ha. by destruct (word_char_spec a Ha) as (-> & _). }
  split; [|split; [|split; [|split]]].
  - apply (all_chars_plain is_word_char); done.
  - apply bool_decide_eq_false. by apply safe_word_not_in.
  - unfold int_like, parse_int. rewrite Hstrip, Hplus. simpl.
    rewrite Hminus. by rewrite uint_of_char_other.
  - unfold float_like. rewrite Hstrip. simpl drop_sign.
    rewrite Hplus, Hminus. simpl.
    apply orb_false_iff. split.
    + apply bool_decide_eq_false. intros Hin. apply Hres.
      change (lowercase (String c r) ∈ ["inf"; "infinity"]) in Hin.
      revert Hin. generalize (lowercase (String c r)). intros x Hx.
      apply elem_of_cons in Hx as [->|Hx]; [unfold reserved; repeat constructor|].
      apply list_elem_of_singleton in Hx as ->.
      unfold reserved; repeat constructor.
    + unfold decimal_shape. simpl. rewrite Hdigit. by rewrite Hdot.
  - apply bool_decide_eq_false. by apply safe_word_not_in.
Qed.

(** ** The type of a column *)

Lemma scalar_kind_int (fields : list string) :
  Forall (fun f => is_na f = false /\
                   exists z, parse_int f = Some z /\ in_int64 z = true)
         fields ->
  scalar_kind fields = KInt.
Proof.
  intros H. unfold scalar_kind.
  assert (forallb (fun f => negb (is_na f) && int_like f) fields = true) as ->.
  { apply forallb_Forall. eapply Forall_impl; [exact H|].
    intros f (-> & z & Hz & _). unfold int_like. by rewrite Hz. }
  assert (Hrange : forallb in_int64 (omap parse_int fields) = true).
  { apply forallb_Forall, Forall_forall.
    intros y (f & Hf & Hy)%list_elem_of_omap.
    rewrite Forall_forall in H. destruct (H f Hf) as (_ & z & Hz & Hr).
    congruence. }
  by rewrite Hrange.
Qed.

Lemma scalar_kind_text (fields : list string) (f : string) :
  f ∈ fields ->
  is_na f = false -> int_like f = false -> float_like f = false ->
  bool_like f = false ->
  scalar_kind fields = KText.
Proof.
  intros Hin Hna Hint Hfloat Hbool. unfold scalar_kind.
  destruct (forallb (fun f => negb (is_na f) && int_like f) fields) eqn:E1.
  { apply (forallb_elem _ _ _ Hin) in E1. cbv beta in E1.
    by rewrite Hint, andb_false_r in E1. }
  simpl.
  destruct (forallb (fun f => is_na f || float_like f) fields) eqn:E2.
  { apply (forallb_elem _ _ _ Hin) in E2. cbv beta in E2.
    by rewrite Hna, Hfloat in E2. }
  destruct (forallb (fun f => is_na f || bool_like f) fields) eqn:E3.
  { apply (forallb_elem _ _ _ Hin) in E3. cbv beta in E3.
    by rewrite Hna, Hbool in E3. }
  done.
Qed.

(** A value of a column type is written as a plain field, and read back
    as itself in a column of that type. *)
Lemma has_type_text (t : column_type) (c : scalar) :
  has_type t c = true ->
  plain (scalar_to_text c) = true /\
  scalar_of_text (kind_of t) (scalar_to_text c) = c.
Proof.
  destruct t, c as [z|b|w| |f]; try done; intros H.
  - split; [apply int_text_plain|].
    unfold kind_of, scalar_of_text. by rewrite parse_int_text.
  - simpl in *. destruct (safe_word_spec w H) as (Hplain & -> & _). done.
Qed.

(** A column of values of one column type gets the type of these
    values. *)
Lemma column_kind_of (t : column_type) (col : list scalar) :
  col <> [] -> Forall (fun c => has_type t c = true) col ->
  scalar_kind (map scalar_to_text col) = kind_of t.
Proof.
  intros Hne Hcol. destruct t; simpl.
  - apply scalar_kind_int. rewrite Forall_fmap.
    eapply Forall_impl; [exact Hcol|]. intros [z|b|w| |f] H; try done.
    simpl in H. unfold compose. split; [apply int_text_not_na|].
    exists z. split; [apply parse_int_text|done].
  - destruct col as [|c col]; [done|].
    apply Forall_cons in Hcol as [Hc _].
    destruct c as [z|b|w| |f]; try done. simpl in Hc.
    destruct (safe_word_spec w Hc) as (_ & ? & ? & ? & ?).
    apply (scalar_kind_text _ w); try done. simpl. by left.
Qed.

End Cells.

(* ===================================================================== *)
(** * Tables of integers and words                                        *)
(* ===================================================================== *)

Section Tables.

Import OS Pandas Clock Runtime FileUtil DataProcess.

Lemma column_cons {A} (j : nat) (r : list A) (rows : list (list A)) :
  column j (r :: rows)
  = match r !! j with Some c => c :: column j rows | None => column j rows end.
Proof. done. Qed.

Lemma column_fmap {A B} (f : A -> B) (j : nat) (rows : list (list A)) :
  column j (map (map f) rows) = map f (column j rows).
Proof.
  induction rows as [|r rows IH]; [done|]. cbn [map].
  rewrite !column_cons, IH, list_lookup_fmap. by destruct (r !! j).
Qed.

Lemma column_Forall {A} (P : A -> Prop) (j : nat) (rows : list (list A)) :
  Forall (fun r => forall c, r !! j = Some c -> P c) rows ->
  Forall P (column j rows).
Proof.
  induction 1 as [|r rows Hr _ IH]; [constructor|]. rewrite column_cons.
  destruct (r !! j) as [c|]; [|done]. constructor; [by apply Hr|done].
Qed.

Lemma map_fixed {A} (g : A -> A) (l : list A) :
  Forall (fun x => g x = x) l -> map g l = l.
Proof. induction 1; simpl; congruence. Qed.

(** The rows of a table of integers and words are read back as they
    were written. *)
Lemma typed_as_faithful (types : list column_type) (df : DataFrame scalar) :
  typed_as types df -> csv_faithful df.
Proof.
  intros (Hne & Hnd & Hnames & Hlen & Hrows).
  assert (Hcells : Forall (fun r : Z * list scalar =>
                     length r.2 = length (df_columns df) /\
                     Forall (fun c => plain (scalar_to_text c) = true) r.2 /\
                     zip_with scalar_of_text (map kind_of types)
                              (map scalar_to_text r.2) = r.2)
                          (df_rows df)).
  { eapply Forall_impl; [exact Hrows|]. intros r Hr.
    split; [by rewrite <- (Forall2_length _ _ _ Hr)|].
    clear -Hr. induction Hr as [|t c types' cells Hc _ [IH1 IH2]]; [done|].
    destruct (has_type_text _ _ Hc) as [Hp Hback].
    split; [by constructor|]. simpl. by rewrite Hback, IH2. }
  split; [done|]. split; [done|]. split.
  { eapply Forall_impl; [exact Hnames|]. intros name Hn.
    by destruct (safe_word_spec name Hn) as (? & _). }
  split. { eapply Forall_impl; [exact Hcells|]. by intros r (? & _). }
  split. { eapply Forall_impl; [exact Hcells|]. by intros r (_ & ? & _). }
  unfold typed_rows. simpl.
  destruct (df_rows df) as [|r0 rows] eqn:Erows.
  { unfold df_values. by rewrite Erows. }
  rewrite <- Erows in Hrows, Hcells.
  assert (Hkinds : map (fun j => scalar_kind
                                   (column j (map (map scalar_to_text) (df_values df))))
                       (seq 0 (length (df_columns df)))
                   = map kind_of types).
  { rewrite <- Hlen. apply list_eq. intros j.
    rewrite !list_lookup_fmap.
    destruct (types !! j) as [t|] eqn:Ht; simpl.
    - rewrite lookup_seq_lt by (by eapply lookup_lt_Some). simpl. f_equal.
      rewrite column_fmap. apply column_kind_of.
      + unfold df_values. rewrite Erows in Hrows |- *.
        apply Forall_cons in Hrows as [Hr0 _].
        rewrite fmap_cons, column_cons.
        destruct (Forall2_lookup_l _ _ _ _ _ Hr0 Ht) as (c & -> & _). done.
      + apply column_Forall. unfold df_values. rewrite Forall_fmap.
        eapply Forall_impl; [exact Hrows|]. intros r Hr c Hc. simpl in Hc.
        destruct (Forall2_lookup_r _ _ _ _ _ Hr Hc) as (t' & Ht' & Hcell).
        congruence.
    - rewrite lookup_seq_ge by (by apply lookup_ge_None). done. }
  rewrite Hkinds. unfold df_values. rewrite map_map.
  apply map_fixed. rewrite Forall_fmap.
  eapply Forall_impl; [exact Hcells|]. by intros r (_ & _ & ?).
Qed.




End Tables.

(* ===================================================================== *)
(** * The snapshot round trip                                             *)
(* ===================================================================== *)

Section RoundTrip.

Import OS Pandas Clock Runtime FileUtil DataProcess.

Context {cell : Type} {codec : CellCodec cell}.



End RoundTrip.

Section RoundTripOfTables.

Import OS Pandas Clock Runtime FileUtil DataProcess.



End RoundTripOfTables.

(* ===================================================================== *)
(** * The properties on the sample run                                    *)
(* ===================================================================== *)

Section Witnesses.

Import OS Pandas Clock Runtime FileUtil DataProcess Examples.

Lemma encoded_genres_storable : storable encoded_genres.
Proof.
  exists [IntColumn; IntColumn; IntColumn].
  unfold typed_as, encoded_genres. simpl.
  split; [done|]. split; [compute_done|].
  repeat split; repeat constructor.
Qed.

Lemma genres_storable : storable genres.
Proof.
  exists [IntColumn; WordColumn; IntColumn].
  unfold typed_as, genres. simpl.
  split; [done|]. split; [compute_done|].
  repeat split; repeat constructor.
Qed.

Lemma sample_rate : (0 < 1 # 5 /\ 1 # 5 < 1)%Q.
Proof. split; reflexivity. Qed.



Lemma split_partitions_rows_witness :
  exists td ted tl tel,
    DataProcess.split RoundHalfEven encoded_genres "genre" (1 # 5) true
      [3; 1; 4; 1; 5]%nat = Return (td, ted, tl, tel) /\
    df_len td + df_len ted = df_len encoded_genres /\
    (Z.abs (Z.of_nat (df_len ted)
            - py_round (inject_Z (Z.of_nat (df_len encoded_genres)) * (1 # 5))) <= 1)%Z /\
    df_index td ++ df_index ted ≡ₚ df_index encoded_genres /\
    (NoDup (df_index encoded_genres) ->
     forall k, k ∈ df_index td -> k ∉ df_index ted) /\
    s_index tl = df_index td /\ s_index tel = df_index ted.
Proof.
  apply (split_partitions_rows RoundHalfEven encoded_genres "genre" (1 # 5)
           true [3; 1; 4; 1; 5]%nat).
  - exact sample_rate.
  - compute_done.
  - repeat constructor.
Defined.

Lemma persist_snapshot_never_overwrites_witness :
  let td := mk_frame ["f1"] [(0%Z, [SInt 1]); (1%Z, [SInt 2])] in
  let tl := mk_series "genre" [(0%Z, SInt 0); (1%Z, SInt 1)] in
  let ted := mk_frame ["f1"] [(2%Z, [SInt 3])] in
  let tel := mk_series "genre" [(2%Z, SInt 0)] in
  let fs := w_fs sample_world in
  let fs1 := (persist_snapshot td tl ted tel "genre" "../../feature/s/" fs).2 in
  isdir fs1 "../../feature/s" = true /\
  persist_snapshot ted tel td tl "genre" "../../feature/s/" fs1
    = (Raise IOError, fs1) /\
  fs1 !! join "../../feature/s" TRAIN
    = Some (File (to_csv (recombine td tl "genre"))) /\
  fs1 !! join "../../feature/s" TEST
    = Some (File (to_csv (recombine ted tel "genre"))).
Proof.
  intros td tl ted tel fs fs1. split.
  - apply (proj1 (persist_snapshot_never_overwrites
                    td tl ted tel "genre" "../../feature/s/" fs)).
    reflexivity.
  - apply (proj2 (proj2 (persist_snapshot_never_overwrites
                           td tl ted tel "genre" "../../feature/s/" fs))
             fs1 "../../feature/s/").
    vm_compute. reflexivity.
Defined.

Lemma run_uses_one_feature_source_witness :
  data_calls (trace (MGC.run (reference_env RoundFloor) true true sample_world))
  = fresh_path.
Proof.
  apply (proj2 (run_uses_one_feature_source (reference_env RoundFloor)
                  true true sample_world)).
  vm_compute. reflexivity.
Defined.

Lemma run_aborts_on_failure_witness :
  let r := MGC.main (reference_env RoundFloor) sample_world in
  (forall a, PrintedAccuracy a ∉ trace r) /\
  out r = Raise NotFoundError /\
  last (trace r) = Some (Called DP_read_dataset (Some NotFoundError)) /\
  (DP_read_dataset <> CLF_test -> forall s, Called CLF_test s ∉ trace r).
Proof.
  destruct (run_aborts_on_failure (reference_env RoundFloor) false true
              sample_world) as [Hraised Hfailed].
  split.
  - apply Hraised. vm_compute. exact I.
  - apply (Hfailed DP_read_dataset NotFoundError).
    apply (list_elem_of_lookup_2 _ 3). vm_compute. reflexivity.
Defined.

Lemma rescale_in_place_confined : confined rescale_in_place.
Proof.
  intros r label w w' o. unfold rescale_in_place.
  destruct (w_heap w !! r) as [[df|s|tag]|] eqn:Hr; intros [= <- <-]; simpl;
    (split; [|intros r' [= <-]; by left || done]); intros l Hl _; try done.
  by rewrite lookup_insert_ne.
Qed.

Lemma factorize_to_new_confined : confined factorize_to_new.
Proof.
  intros r label w w' o. unfold factorize_to_new, alloc, new_object.
  destruct (w_heap w !! r) as [[df|s|tag]|] eqn:Hr; intros [= <- <-]; simpl;
    (split; [|try (intros r' [= <-]; right; apply fresh_is_new); done]);
    intros l Hl [x Hx]; try done.
  rewrite lookup_insert_ne; [done|]. intros <-.
  by rewrite fresh_is_new in Hx.
Qed.

Lemma data_process_keeps_input_witness :
  let r := MGC.data_process (reference_env RoundFloor) sample_mgc 2%positive
             sample_world in
  (forall l o, w_heap sample_world !! l = Some o ->
               w_heap (final r) !! l = Some o) /\
  (forall p, out r = Return p ->
             p <> 2%positive /\ w_heap sample_world !! p = None).
Proof.
  apply (data_process_keeps_input (reference_env RoundFloor) sample_mgc
           2%positive sample_world).
  - exact rescale_in_place_confined.
  - exact factorize_to_new_confined.
Defined.

(** The scenario of the specification: 100 rows at a test rate of 0.2
    give 80 train rows, however the fraction is rounded. *)
Example train_count_100_rows (mode : rounding) :
  train_count mode 100 (1 # 5) = 80%nat.
Proof. by destruct mode. Qed.

(** What the round trip does not keep: the snapshot is written without
    the index, so the reloaded test partition is numbered from 0 while
    the one returned by [make_dataset] kept the label 4 of its row. *)
Example reloaded_index_is_fresh :
  let env := reference_env RoundFloor in
  let made := MGC.make_dataset env sample_mgc 1%positive "../../feature"
                sample_world in
  let loaded := MGC.read_dataset env sample_mgc
                  "../../feature/2019-01-23_23:19:56.871484" (final made) in
  out made = Return (3, 4, 5, 6)%positive /\
  out loaded = Return (7, 8, 9, 10)%positive /\
  w_heap (final loaded) !! 4%positive
    = Some (ODataFrame (mk_frame ["f1"; "f2"] [(4%Z, [SInt 5; SInt (-50)])])) /\
  w_heap (final loaded) !! 8%positive
    = Some (ODataFrame (mk_frame ["f1"; "f2"] [(0%Z, [SInt 5; SInt (-50)])])).
Proof. vm_compute. done. Qed.

(** Two snapshots requested within one clock tick of the same run get
    different directories. *)
Example same_tick_ids :
  run_ids fresh_namer [tick; tick; later_tick]
  = ["2019-01-23_23:19:56.871484"; "2019-01-23_23:19:56.871484+";
     "2019-01-23_23:19:59.720996"].
Proof. reflexivity. Qed.

End Witnesses.

(* ===================================================================== *)
(** * [FileUtil] on the file system: paths, lines and tables              *)
(* ===================================================================== *)

Section PathsOnDisk.

Import OS Pandas FileUtil.




(** X2.  On a directory [get_folder_names] returns what [os.listdir]
    reports, with assertions on or off.  With assertions off, a path
    that is not a directory is not rejected by the function itself: the
    exception is the one of [os.listdir], and never [AssertionError]. *)
Theorem get_folder_names_lists (debug : bool) (fs : filesystem) (p : string) :
  (is_valid_directory fs p = true ->
   exists names,
     listdir fs p = Return names /\
     get_folder_names debug fs p = Return names) /\
  (is_invalid_directory fs p = true ->
   get_folder_names false fs p = listdir fs p /\
   (get_folder_names false fs p = Raise FileNotFoundError \/
    get_folder_names false fs p = Raise NotADirectoryError)).
Proof.
  rewrite is_valid_directory_isdir.
  unfold get_folder_names, is_invalid_directory, isdir, listdir.
  destruct (fs !! p) as [[content|names|]|]; simpl; split; intros Hp;
    try done.
  - split; [done|by right].
  - exists names. by destruct debug.
  - split; [done|by right].
  - split; [done|by left].
Qed.

Lemma get_folder_names_lists_witness :
  (exists names,
     listdir (<["data" := Dir ["rock"; "jazz"]]> ∅) "data" = Return names /\
     get_folder_names true (<["data" := Dir ["rock"; "jazz"]]> ∅) "data"
     = Return names) /\
  get_folder_names false ∅ "data" = listdir ∅ "data".
Proof.
  split.
  - apply (proj1 (get_folder_names_lists true _ "data")). reflexivity.
  - apply (proj2 (get_folder_names_lists true ∅ "data")). reflexivity.
Defined.

(** X3.  No path is both a valid file and a valid directory, so
    [get_file_length] and [get_folder_names] never both return on the
    same path; a path can be neither. *)
Theorem file_and_directory_exclusive (debug : bool) (fs : filesystem)
    (p : string) :
  (is_valid_file fs p = true -> is_invalid_directory fs p = true) /\
  (is_valid_directory fs p = true -> is_invalid_file fs p = true) /\
  (forall n names,
     get_file_length fs p = Return n ->
     get_folder_names debug fs p = Return names -> False).
Proof.
  unfold is_valid_file, is_valid_directory, is_invalid_file,
    is_invalid_directory, get_file_length, get_folder_names,
    is_invalid_directory, open_read, listdir, isfile, isdir.
  destruct (fs !! p) as [[content|names|]|]; simpl;
    (split; [done|]); (split; [done|]); intros n names' Hn Hnames;
    try done; by destruct debug.
Qed.

Lemma file_and_directory_exclusive_witness :
  is_invalid_directory (<["a.csv" := File "x,y"]> ∅) "a.csv" = true /\
  is_invalid_file (<["feature" := Dir []]> ∅) "feature" = true.
Proof.
  split.
  - apply (proj1 (file_and_directory_exclusive true _ "a.csv")). reflexivity.
  - apply (proj1 (proj2 (file_and_directory_exclusive true _ "feature"))).
    reflexivity.
Defined.

End PathsOnDisk.

Section LinesOnDisk.

Import OS Pandas FileUtil.

(** The end of a text that has no line terminator in it is one line,
    unless there is nothing to read. *)
Lemma lines_from_unterminated (cur last : string) :
  contains_char LF last = false -> contains_char CR last = false ->
  lines_from cur last
  = match cur +:+ last with EmptyString => [] | l => [l] end.
Proof.
  revert cur. induction last as [|c last IH]; intros cur Hlf Hcr.
  - rewrite string_app_nil_r. by destruct cur.
  - simpl in Hlf, Hcr.
    apply orb_false_elim in Hlf as [Hc1 Hlf].
    apply orb_false_elim in Hcr as [Hc2 Hcr].
    simpl. rewrite Hc1, Hc2. rewrite IH by done.
    by rewrite string_app_assoc.
Qed.

Lemma lines_from_terminated (nl : newline) (cur l rest : string) :
  contains_char LF l = false -> contains_char CR l = false ->
  (nl = OldMac -> startswith_char LF rest = false) ->
  lines_from cur (l +:+ terminator nl +:+ rest)
  = (cur +:+ l) :: lines_from EmptyString rest.
Proof.
  revert cur. induction l as [|c l IH]; intros cur Hlf Hcr Hrest.
  - rewrite string_app_nil_l, string_app_nil_r.
    destruct nl; unfold terminator;
      rewrite ?string_app_cons, ?string_app_nil_l; simpl; [done|done|].
    destruct rest as [|c' rest]; [done|].
    specialize (Hrest eq_refl). simpl in Hrest. by rewrite Hrest.
  - simpl in Hlf, Hcr.
    apply orb_false_elim in Hlf as [Hc1 Hlf].
    apply orb_false_elim in Hcr as [Hc2 Hcr].
    rewrite string_app_cons. simpl. rewrite Hc1, Hc2.
    rewrite IH by done. by rewrite string_app_assoc.
Qed.

Lemma file_text_start (ls : list string) (last : string) :
  Forall (fun l => contains_char LF l = false /\ contains_char CR l = false) ls ->
  contains_char LF last = false ->
  startswith_char LF (file_text OldMac ls last) = false.
Proof.
  intros Hls Hlast. destruct Hls as [|l ls [Hlf _] _]; simpl.
  - destruct last; [done|]. simpl in *. by apply orb_false_elim in Hlast as [? _].
  - destruct l; [done|]. simpl in *. by apply orb_false_elim in Hlf as [? _].
Qed.

Lemma text_lines_file_text (nl : newline) (ls : list string) (last : string) :
  Forall (fun l => contains_char LF l = false /\ contains_char CR l = false) ls ->
  contains_char LF last = false -> contains_char CR last = false ->
  text_lines (file_text nl ls last)
  = ls ++ match last with EmptyString => [] | l => [l] end.
Proof.
  intros Hls Hlf Hcr. unfold text_lines.
  induction Hls as [|l ls [Hl1 Hl2] Hls IH]; simpl.
  - rewrite lines_from_unterminated by done. rewrite string_app_nil_l.
    by destruct last.
  - rewrite lines_from_terminated; [by rewrite IH|done|done|].
    intros ->. by apply file_text_start.
Qed.

(** X4.  On a file that holds the lines [ls], each followed by a line
    terminator, and then the text [last], [get_file_length] returns the
    number of lines, an unterminated last line included, whichever of
    the three terminators the file uses; and it returns 1, not 0, when
    the file is empty. *)
Theorem get_file_length_counts_lines (nl : newline) (fs : filesystem)
    (p : string) (ls : list string) (last : string) :
  Forall (fun l => contains_char LF l = false /\ contains_char CR l = false) ls ->
  contains_char LF last = false -> contains_char CR last = false ->
  fs !! p = Some (File (file_text nl ls last)) ->
  get_file_length fs p
  = Return (Nat.max 1 (length ls + (if decide (last = EmptyString) then 0 else 1))).
Proof.
  intros Hls Hlf Hcr Hp. rewrite (get_file_length_lines _ _ _ Hp).
  rewrite text_lines_file_text by done. rewrite length_app.
  do 3 f_equal. by destruct last.
Qed.

Lemma get_file_length_counts_lines_witness :
  get_file_length (<["a.csv" := File (file_text Windows ["x,y"; "1,2"] "3,4")]> ∅)
                  "a.csv"
  = Return 3.
Proof.
  apply (get_file_length_counts_lines Windows _ "a.csv" ["x,y"; "1,2"] "3,4");
    [by repeat constructor|reflexivity|reflexivity|reflexivity].
Defined.

(** A text made of line terminators only has blank lines only. *)
Lemma blank_lines (n : nat) (content : string) :
  String.length content <= n ->
  (forall c, contains_char c content = true -> c = LF \/ c = CR) ->
  filter (fun l => l <> EmptyString) (lines_from EmptyString content) = [].
Proof.
  revert content. induction n as [|n IH]; intros content Hlen Hblank.
  - destruct content; [done|]. simpl in Hlen. lia.
  - destruct content as [|c rest]; [done|].
    assert (Hrest : forall c', contains_char c' rest = true -> c' = LF \/ c' = CR).
    { intros c' Hc'. apply Hblank. simpl. rewrite Hc'. apply orb_true_r. }
    simpl in Hlen. simpl.
    destruct (Hblank c) as [->| ->]; [simpl; by rewrite Ascii.eqb_refl| |].
    + simpl. rewrite filter_cons_False by (by intros H; apply H).
      apply IH; [lia|done].
    + simpl. destruct rest as [|c' rest'].
      * done.
      * destruct (Ascii.eqb c' LF) eqn:Hc'.
        -- rewrite filter_cons_False by (by intros H; apply H).
           apply IH; [simpl in Hlen; lia|].
           intros c'' Hc''. apply Hrest. simpl. rewrite Hc''. apply orb_true_r.
        -- rewrite filter_cons_False by (by intros H; apply H).
           apply IH; [lia|done].
Qed.

(** X5.  [csv2dataframe] on a file that is empty, or holds nothing but
    line terminators, raises [EmptyDataError]: it returns no empty
    table. *)
Theorem csv2dataframe_blank_file {cell : Type} {codec : CellCodec cell}
    (fs : filesystem) (p content : string) :
  fs !! p = Some (File content) ->
  (forall c, contains_char c content = true -> c = LF \/ c = CR) ->
  csv2dataframe (cell := cell) fs p = Raise EmptyDataError.
Proof.
  intros Hp Hblank. unfold csv2dataframe, open_read. rewrite Hp. simpl.
  unfold read_csv_text, text_lines.
  by rewrite (blank_lines (String.length content) content).
Qed.

Lemma csv2dataframe_blank_file_witness :
  csv2dataframe (cell := scalar) (<["a.csv" := File EmptyString]> ∅) "a.csv"
  = Raise EmptyDataError.
Proof.
  apply (csv2dataframe_blank_file (cell := scalar) _ "a.csv" EmptyString);
    [reflexivity|]. intros c Hc. discriminate Hc.
Defined.

End LinesOnDisk.

Section TablesOnDisk.

Import OS Pandas FileUtil.

(** What a write that succeeded has found and what it has left. *)
Lemma write_text_Return (path text : string) (fs fs' : filesystem) :
  write_text path text fs = (Return tt, fs') ->
  exists old,
    fs !! (OS.split path).1 = Some (Dir old) /\
    isdir fs path = false /\
    path <> (OS.split path).1 /\
    fs' = <[path := File text]>
            (<[(OS.split path).1 :=
                 Dir (if bool_decide ((OS.split path).2 ∈ old) then old
                      else old ++ [(OS.split path).2])]> fs).
Proof.
  unfold write_text, isdir. destruct (OS.split path) as [parent name]. simpl.
  destruct (fs !! path) as [[c|es|]|] eqn:Hpath; [| intros [=] | |];
    (destruct (fs !! parent) as [[c'|old|]|] eqn:Hparent; intros [= <-];
     exists old; repeat split; try done; intros ->; congruence).
Qed.

Context {cell : Type} {codec : CellCodec cell}.

(** X6.  For a path with a directory part, [dataframe2csv] writes the
    file exactly when the path is not a directory and the directory
    part is an existing directory: it creates no directory.  When it
    raises, the file system is as it was.  (A bare file name is
    resolved against the working directory, which the file-system map
    does not hold; such paths are left out.) *)
Theorem dataframe2csv_needs_directory (df : DataFrame cell) (path : string)
    (fs : filesystem) :
  (OS.split path).1 <> EmptyString ->
  ((dataframe2csv df path fs).1 = Return tt <->
   isdir fs path = false /\
   is_valid_directory fs (OS.split path).1 = true) /\
  (raised (dataframe2csv df path fs).1 -> (dataframe2csv df path fs).2 = fs).
Proof.
  intros _.
  rewrite is_valid_directory_isdir. unfold dataframe2csv, write_text, isdir.
  destruct (OS.split path) as [parent name]. simpl.
  destruct (fs !! path) as [[c|es|]|];
    destruct (fs !! parent) as [[c'|old|]|]; simpl;
    (split; [split; [intros H; by try discriminate H
                    |intros [H1 H2]; by try discriminate]
            |done]).
Qed.

(** X8.  [dataframe2csv] does not refuse a path that already holds a
    table: a second write to the same path succeeds, the file then
    holds the second table, and nothing else changes; the directory
    does not list the file twice. *)
Theorem dataframe2csv_replaces (first second : DataFrame cell)
    (path : string) (fs fs1 : filesystem) :
  dataframe2csv first path fs = (Return tt, fs1) ->
  exists fs2,
    dataframe2csv second path fs1 = (Return tt, fs2) /\
    fs2 !! path = Some (File (to_csv second)) /\
    forall q, q <> path -> fs2 !! q = fs1 !! q.
Proof.
  intros Hw. apply write_text_Return in Hw as (old & Hparent & _ & Hne & ->).
  unfold dataframe2csv, write_text. rewrite lookup_insert_eq.
  destruct (OS.split path) as [parent name]. simpl in *.
  rewrite lookup_insert_ne by done. rewrite lookup_insert_eq.
  set (entries := if bool_decide (name ∈ old) then old else old ++ [name]).
  assert (Hin : name ∈ entries).
  { subst entries. case_bool_decide; [done|].
    apply elem_of_app. right. by left. }
  rewrite (bool_decide_eq_true_2 _ Hin).
  eexists. split; [reflexivity|]. split; [by rewrite lookup_insert_eq|].
  intros q Hq. rewrite lookup_insert_ne by done.
  destruct (decide (q = parent)) as [->|Hqp].
  - rewrite lookup_insert_eq, lookup_insert_ne by done.
    by rewrite lookup_insert_eq.
  - by rewrite lookup_insert_ne.
Qed.


(** X10.  When no column name and no value of a table is written with
    a line terminator in it, the file that [dataframe2csv] writes for
    the table has one line more than the table has rows:
    [get_file_length] on it returns the number of rows plus one, for
    the header. *)
Theorem written_file_length (df : DataFrame cell) (path : string)
    (fs fs' : filesystem) :
  Forall (fun name => contains_char LF name = false /\
                      contains_char CR name = false) (df_columns df) ->
  Forall (fun r : Z * list cell =>
            Forall (fun c => contains_char LF (cell_to_text c) = false /\
                             contains_char CR (cell_to_text c) = false) r.2)
         (df_rows df) ->
  dataframe2csv df path fs = (Return tt, fs') ->
  get_file_length fs' path = Return (S (df_len df)).
Proof.
  intros Hnames Hcells Hw.
  apply write_text_Return in Hw as (old & _ & _ & _ & ->).
  rewrite (get_file_length_lines _ _ (to_csv df)) by apply lookup_insert_eq.
  rewrite text_lines_to_csv by done. simpl.
  unfold df_values, df_len. by rewrite !length_map.
Qed.

(** The text of a table depends on its column names and its values
    only. *)
Lemma to_csv_values (df df' : DataFrame cell) :
  df_columns df = df_columns df' -> df_values df = df_values df' ->
  to_csv df = to_csv df'.
Proof.
  intros Hcolumns Hvalues. unfold to_csv. rewrite Hcolumns. do 2 f_equal.
  transitivity (map (fun v : list cell => csv_line (map cell_to_text v))
                    (df_values df)).
  - unfold df_values. by rewrite <- list_fmap_compose.
  - rewrite Hvalues. unfold df_values. by rewrite <- list_fmap_compose.
Qed.

(** X11.  The row index is not written: two tables with the same
    column names and the same values, whatever their index labels,
    give the same file. *)
Theorem dataframe2csv_ignores_index (df df' : DataFrame cell)
    (path : string) (fs : filesystem) :
  df_columns df = df_columns df' -> df_values df = df_values df' ->
  dataframe2csv df path fs = dataframe2csv df' path fs.
Proof.
  intros Hcolumns Hvalues. unfold dataframe2csv.
  by rewrite (to_csv_values df df').
Qed.

End TablesOnDisk.

Section StoredTables.

Import OS Pandas FileUtil.

(** X7.  A table whose column names are distinct words and whose
    columns hold only 64-bit integers or only words, written by
    [dataframe2csv] and read back from the same path by
    [csv2dataframe], comes back with its column names and its values,
    row for row, on a fresh range index. *)
Theorem csv_file_round_trip (df : DataFrame scalar) (path : string)
    (fs fs' : filesystem) :
  storable df ->
  dataframe2csv df path fs = (Return tt, fs') ->
  csv2dataframe fs' path = Return (reset_index df).
Proof.
  intros [types Ht] Hw. apply write_text_Return in Hw as (old & _ & _ & _ & ->).
  unfold csv2dataframe, open_read. rewrite lookup_insert_eq. simpl.
  apply read_csv_to_csv. by eapply typed_as_faithful.
Qed.

(** X12.  For a table whose column names are distinct words and whose
    columns hold only 64-bit integers or only words: saving back, to
    the same path, the table that was loaded from the file
    [dataframe2csv] wrote for it succeeds and leaves the file system
    exactly as it is. *)
Theorem resaving_loaded_table_changes_nothing (df loaded : DataFrame scalar)
    (path : string) (fs fs1 : filesystem) :
  storable df ->
  dataframe2csv df path fs = (Return tt, fs1) ->
  csv2dataframe fs1 path = Return loaded ->
  dataframe2csv loaded path fs1 = (Return tt, fs1).
Proof.
  intros [types Ht] Hw Hr.
  apply write_text_Return in Hw as (old & Hparent & _ & Hne & ->).
  unfold csv2dataframe, open_read in Hr. rewrite lookup_insert_eq in Hr.
  simpl in Hr.
  rewrite read_csv_to_csv in Hr by (by eapply typed_as_faithful).
  injection Hr as <-.
  unfold dataframe2csv.
  rewrite (to_csv_values (reset_index df) df)
    by (by destruct (reset_index_values df)).
  unfold write_text. rewrite lookup_insert_eq.
  destruct (OS.split path) as [parent name]. simpl in *.
  rewrite lookup_insert_ne by done. rewrite lookup_insert_eq.
  set (entries := if bool_decide (name ∈ old) then old else old ++ [name]).
  assert (Hin : name ∈ entries).
  { subst entries. case_bool_decide; [done|].
    apply elem_of_app. right. by left. }
  rewrite (bool_decide_eq_true_2 _ Hin). f_equal.
  rewrite (insert_id _ parent (Dir entries)).
  - apply insert_id. by rewrite lookup_insert_eq.
  - rewrite lookup_insert_ne by done. by rewrite lookup_insert_eq.
Qed.

End StoredTables.

Section TablesOnDiskExamples.

Import OS Pandas Runtime FileUtil Examples.

Lemma dataframe2csv_needs_directory_witness :
  (dataframe2csv encoded_genres "../../feature/t.csv" (w_fs sample_world)).1
  = Return tt /\
  (dataframe2csv encoded_genres "../../nowhere/t.csv" (w_fs sample_world)).2
  = w_fs sample_world.
Proof.
  split.
  - apply (proj1 (dataframe2csv_needs_directory encoded_genres
                    "../../feature/t.csv" (w_fs sample_world)
                    ltac:(vm_compute; discriminate))).
    split; vm_compute; reflexivity.
  - apply (proj2 (dataframe2csv_needs_directory encoded_genres
                    "../../nowhere/t.csv" (w_fs sample_world)
                    ltac:(vm_compute; discriminate))).
    vm_compute. exact I.
Defined.

Lemma csv_file_round_trip_witness :
  csv2dataframe
    (dataframe2csv genres "../../feature/t.csv" (w_fs sample_world)).2
    "../../feature/t.csv"
  = Return (reset_index genres).
Proof.
  apply (csv_file_round_trip genres "../../feature/t.csv"
           (w_fs sample_world)).
  - exact genres_storable.
  - reflexivity.
Defined.

Lemma dataframe2csv_replaces_witness :
  exists fs2,
    dataframe2csv encoded_genres "../../feature/t.csv"
      (dataframe2csv genres "../../feature/t.csv" (w_fs sample_world)).2
    = (Return tt, fs2) /\
    fs2 !! "../../feature/t.csv" = Some (File (to_csv encoded_genres)) /\
    forall q, q <> "../../feature/t.csv" ->
      fs2 !! q
      = (dataframe2csv genres "../../feature/t.csv" (w_fs sample_world)).2 !! q.
Proof.
  apply (dataframe2csv_replaces genres encoded_genres "../../feature/t.csv"
           (w_fs sample_world)).
  reflexivity.
Defined.


Lemma written_file_length_witness :
  get_file_length
    (dataframe2csv encoded_genres "../../feature/t.csv" (w_fs sample_world)).2
    "../../feature/t.csv"
  = Return 6.
Proof.
  apply (written_file_length encoded_genres "../../feature/t.csv"
           (w_fs sample_world)).
  - by repeat constructor.
  - by repeat constructor.
  - reflexivity.
Defined.

Lemma dataframe2csv_ignores_index_witness :
  dataframe2csv (mk_frame ["f1"] [(7%Z, [SInt 1]); (3%Z, [SInt 2])])
                "../../feature/t.csv" (w_fs sample_world)
  = dataframe2csv (mk_frame ["f1"] [(0%Z, [SInt 1]); (1%Z, [SInt 2])])
                  "../../feature/t.csv" (w_fs sample_world).
Proof.
  apply (dataframe2csv_ignores_index
           (mk_frame ["f1"] [(7%Z, [SInt 1]); (3%Z, [SInt 2])])
           (mk_frame ["f1"] [(0%Z, [SInt 1]); (1%Z, [SInt 2])]));
    reflexivity.
Defined.

Lemma resaving_loaded_table_changes_nothing_witness :
  dataframe2csv (reset_index encoded_genres) "../../feature/t.csv"
    (dataframe2csv encoded_genres "../../feature/t.csv" (w_fs sample_world)).2
  = (Return tt,
     (dataframe2csv encoded_genres "../../feature/t.csv" (w_fs sample_world)).2).
Proof.
  apply (resaving_loaded_table_changes_nothing encoded_genres
           (reset_index encoded_genres) "../../feature/t.csv"
           (w_fs sample_world)).
  - exact encoded_genres_storable.
  - reflexivity.
  - vm_compute. reflexivity.
Defined.

End TablesOnDiskExamples.

(* ===================================================================== *)
(** * The stages of a run: constructors, model, test and console          *)
(* ===================================================================== *)

Section Stages.

Import OS Pandas Clock Runtime FileUtil MGC.

Context {cell : Type} {codec : CellCodec cell}.

Lemma cons_app_eq {A} (e : A) (l t s : list A) :
  l = t ++ s -> e :: l = (e :: t) ++ s.
Proof. by intros ->. Qed.

(** Split on what the next call of the program does. *)
Ltac next_call :=
  match goal with
  | |- context [match ?p with (_, _) => _ end] =>
      is_var p; destruct p; simpl
  | |- context [match ?f ?w with (o, w') => _ end] =>
      destruct (f w) as [[?|?] ?] eqn:?; simpl
  | |- context [match w_heap ?w !! ?r with _ => _ end] =>
      destruct (w_heap w !! r) as [[?|?|?]|] eqn:?; simpl
  end.

Ltac unfold_program env :=
  destruct env; unfold run, init, feature_extraction, data_process,
    make_dataset, read_dataset, training, test, bind, call, local, ret,
    print, print_accuracy, copy, alloc, new_object, get_time; simpl.

(** Case analysis on a membership in a trace that is known event by
    event. *)
Ltac in_trace H :=
  repeat (apply elem_of_cons in H as [H|H];
          [first [discriminate H | injection H as ? ?; subst
                 | injection H as ?; subst]|]);
  try (by apply elem_of_nil in H).

(** An event that is in a trace known event by event. *)
Ltac find_event :=
  first [apply list_elem_of_here | apply list_elem_of_further; find_event].

(** The events of a trace known event by event, up to its last three. *)
Ltac but_last_three :=
  first [exact (eq_refl : _ = [] ++ _) | apply cons_app_eq; but_last_three].

(** X13.  The outside calls of a run are an initial part of one fixed
    sequence: the three constructors of [__init__], the calls of the
    data path of the run mode, then training and saving the model or
    loading it, but not both, then the test.  The run completes exactly
    when the whole sequence was called and no call raised; [predict] is
    never called. *)
Theorem run_call_sequence (env : Collaborators cell)
    (feature_extraction_flag training_flag : bool) (w : World cell) :
  let r := run env feature_extraction_flag training_flag w in
  let stages :=
    constructors
    ++ (if feature_extraction_flag then fresh_path else reuse_path)
    ++ (if training_flag then train_path else load_path)
    ++ [CLF_test] in
  calls (trace r) `prefix_of` stages /\
  (out r = Return tt <->
   calls (trace r) = stages /\ forall c e, Called c (Some e) ∉ trace r) /\
  (forall status, Called CLF_predict status ∉ trace r).
Proof.
  unfold_program env.
  destruct feature_extraction_flag, training_flag; simpl.
  all: repeat next_call.
  all: split; [by eexists|].
  all: split; [|intros status Hpredict; by in_trace Hpredict].
  all: split;
    [intros Hout;
     first [discriminate Hout
           |split; [done|];
            intros failed_call failure Hfailed; by in_trace Hfailed]
    |intros [Hcalls Hnone]; try done; try discriminate Hcalls;
     exfalso; eapply Hnone; find_event].
Qed.

(** X14.  A run that completes ends with the test, the message
    [Start prediction] and one accuracy, in that order, and the
    accuracy printed is the value the classifier's [test] returned;
    before that the test was not called, no accuracy was printed, and
    the only message was the one that announces feature extraction. *)
Theorem run_prints_test_accuracy (env : Collaborators cell)
    (feature_extraction_flag training_flag : bool) (w : World cell) :
  let r := run env feature_extraction_flag training_flag w in
  out r = Return tt ->
  exists before accuracy clf model test_data test_label w1,
    trace r = before ++ [Called CLF_test None; Printed "Start prediction";
                         PrintedAccuracy accuracy] /\
    clf_test env clf model test_data test_label w1
    = (Return accuracy, final r) /\
    (forall status, Called CLF_test status ∉ before) /\
    (forall text, Printed text ∈ before -> text = "Start feature extraction") /\
    (forall other, PrintedAccuracy other ∉ before).
Proof.
  unfold_program env.
  destruct feature_extraction_flag, training_flag; simpl.
  all: repeat next_call.
  all: intros Hout; try discriminate Hout.
  all: eexists _, _, _, _, _, _, _.
  all: split; [but_last_three|].
  all: split; [eassumption|].
  all: split; [intros status Htest; by in_trace Htest|].
  all: split; [intros text Htext; by in_trace Htext|].
  all: intros other Hother; by in_trace Hother.
Qed.

(** X15.  What a run prints as messages: a run that completes prints
    [Start prediction] once, after the message that announces feature
    extraction if the run extracts features; a run that fails has
    printed at most that announcement, so a failed run on the reuse
    path prints nothing. *)
Theorem run_console_output (env : Collaborators cell)
    (feature_extraction_flag training_flag : bool) (w : World cell) :
  let r := run env feature_extraction_flag training_flag w in
  let announcement :=
    if feature_extraction_flag then ["Start feature extraction"] else [] in
  (out r = Return tt ->
   printed (trace r) = announcement ++ ["Start prediction"]) /\
  (raised (out r) -> printed (trace r) `prefix_of` announcement).
Proof.
  unfold_program env.
  destruct feature_extraction_flag, training_flag; simpl.
  all: repeat next_call.
  all: split; [intros Hout; by try discriminate Hout|].
  all: intros Hraised; try done; by eexists.
Qed.

(** X16.  [training] returns a model only after the classifier has
    both trained and saved it, under a name directly inside the output
    directory, and the model returned is the one [CLF.training]
    returned.  When saving raises, the caller gets the exception and no
    model, although the model had been trained. *)
Theorem training_returns_saved_model (env : Collaborators cell)
    (self : MusicGenreClassification) (train_data train_label : ref)
    (output_directory : string) (w : World cell) :
  let r := training env self train_data train_label output_directory w in
  calls (trace r) `prefix_of` train_path /\
  (forall model, out r = Return model ->
     trace r = [Called CLF_training None; Called CLF_save_model None] /\
     exists w1 name w2,
       clf_training env (CLF self) train_data train_label w
       = (Return model, w1) /\
       clf_save_model env (CLF self) model (join output_directory name) w2
       = (Return tt, final r)) /\
  (forall e, Called CLF_save_model (Some e) ∈ trace r ->
     out r = Raise e /\
     exists model w1,
       clf_training env (CLF self) train_data train_label w
       = (Return model, w1)).
Proof.
  unfold_program env. destruct self. simpl.
  repeat next_call.
  all: repeat match goal with u : unit |- _ => destruct u end.
  all: split; [by eexists|].
  all: split;
    [intros model Hout;
     first [discriminate Hout
           |injection Hout as <-; split; [done|];
            eexists _, _, _; split; [reflexivity|eassumption]]
    |intros failure Hsave;
     first [by in_trace Hsave
           |in_trace Hsave; split; [done|]; by eexists _, _]].
Qed.

(** X17.  [data_process] hands the normaliser a copy, a new object that
    holds what the input holds, hands the label encoder what the
    normaliser returned, and returns what the label encoder returned;
    it makes these two calls in that order and no other. *)
Theorem data_process_works_on_copy (env : Collaborators cell)
    (self : MusicGenreClassification) (dataframe : ref) (w : World cell) :
  let r := data_process env self dataframe w in
  let label := label_name (cfg self) in
  calls (trace r) `prefix_of` [DP_normalize_dataframe; DP_factorize_lebel] /\
  (forall processed, out r = Return processed ->
     exists c w0 normalized w1,
       w_heap w !! c = None /\
       w_heap w0 !! c = w_heap w !! dataframe /\
       (forall l, l <> c -> w_heap w0 !! l = w_heap w !! l) /\
       normalize_dataframe env c label w0 = (Return normalized, w1) /\
       factorize_lebel env normalized label w1 = (Return processed, final r)).
Proof.
  unfold_program env. destruct self. simpl.
  repeat next_call.
  all: split; [by eexists|].
  all: intros processed Hout; try discriminate Hout.
  all: injection Hout as <-.
  all: eexists _, _, _, _; (split; [apply fresh_is_new|]).
  all: (split; [|split; [|split; eassumption]]); simpl.
  all: try (by rewrite lookup_insert_eq).
  all: intros l Hl; by rewrite lookup_insert_ne.
Qed.

(** X18.  In a run that completes, the four structures of the data
    stage are used as they were returned: the classifier built by
    [__init__] is trained on the train data and the train labels, or
    a model is loaded from the model file, and that same model is
    tested on the test data and the test labels; the test pair is not
    what the model was trained on. *)
Theorem run_data_flow (env : Collaborators cell)
    (feature_extraction_flag training_flag : bool) (w : World cell) :
  let r := run env feature_extraction_flag training_flag w in
  out r = Return tt ->
  exists clf train_data test_data train_label test_label model accuracy,
    (exists w0 w1,
       classifier env "../../config/master_config.ini" w0 = (Return clf, w1)) /\
    (if feature_extraction_flag then
       exists table label rate shuffled directory w0 w1,
         dp_make_dataset env table label rate shuffled directory w0
         = (Return (train_data, test_data, train_label, test_label), w1)
     else
       exists label w0 w1,
         dp_read_dataset env "../../feature/2019-01-23_23:19:56.871484"
           label w0
         = (Return (train_data, test_data, train_label, test_label), w1)) /\
    (if training_flag then
       exists w0 w1,
         clf_training env clf train_data train_label w0 = (Return model, w1)
     else
       exists w0 w1,
         clf_load_model env clf "../../model/2019-01-23_23:19:59.720996/mlp.h5"
           w0
         = (Return model, w1)) /\
    (exists w0,
       clf_test env clf model test_data test_label w0
       = (Return accuracy, final r)).
Proof.
  unfold_program env.
  destruct feature_extraction_flag, training_flag; simpl.
  all: repeat next_call.
  all: intros Hout; try discriminate Hout.
  all: eexists _, _, _, _, _, _, _.
  all: split; [eexists _, _; eassumption|].
  all: split; [repeat eexists; eassumption|].
  all: split; [eexists _, _; eassumption|].
  all: eexists; eassumption.
Qed.

End Stages.

Section StagesExamples.

Import OS Pandas Clock Runtime FileUtil DataProcess MGC Examples.

Lemma run_call_sequence_witness :
  calls (trace (run (reference_env RoundFloor) true true sample_world))
  = constructors ++ fresh_path ++ train_path ++ [CLF_test] /\
  forall c e,
    Called c (Some e)
    ∉ trace (run (reference_env RoundFloor) true true sample_world).
Proof.
  apply (proj1 (proj2 (run_call_sequence (reference_env RoundFloor)
                         true true sample_world))).
  vm_compute. reflexivity.
Defined.

Lemma run_prints_test_accuracy_witness :
  exists before accuracy clf model test_data test_label w1,
    trace (run (reference_env RoundFloor) true true sample_world)
    = before ++ [Called CLF_test None; Printed "Start prediction";
                 PrintedAccuracy accuracy] /\
    clf_test (reference_env RoundFloor) clf model test_data test_label w1
    = (Return accuracy,
       final (run (reference_env RoundFloor) true true sample_world)) /\
    (forall status, Called CLF_test status ∉ before) /\
    (forall text, Printed text ∈ before -> text = "Start feature extraction") /\
    (forall other, PrintedAccuracy other ∉ before).
Proof.
  apply (run_prints_test_accuracy (reference_env RoundFloor) true true
           sample_world).
  vm_compute. reflexivity.
Defined.

Lemma run_console_output_witness :
  printed (trace (run (reference_env RoundFloor) true true sample_world))
  = ["Start feature extraction"; "Start prediction"] /\
  printed (trace (main (reference_env RoundFloor) sample_world)) `prefix_of` [].
Proof.
  split.
  - apply (proj1 (run_console_output (reference_env RoundFloor) true true
                    sample_world)).
    vm_compute. reflexivity.
  - apply (proj2 (run_console_output (reference_env RoundFloor) false true
                    sample_world)).
    vm_compute. exact I.
Defined.

Lemma training_returns_saved_model_witness :
  trace (training (reference_env RoundFloor) sample_mgc 1%positive 2%positive
           "../../model" sample_world)
  = [Called CLF_training None; Called CLF_save_model None] /\
  exists w1 name w2,
    clf_training (reference_env RoundFloor) (CLF sample_mgc) 1%positive
      2%positive sample_world
    = (Return 3%positive, w1) /\
    clf_save_model (reference_env RoundFloor) (CLF sample_mgc) 3%positive
      (join "../../model" name) w2
    = (Return tt,
       final (training (reference_env RoundFloor) sample_mgc 1%positive
                2%positive "../../model" sample_world)).
Proof.
  apply (proj1 (proj2 (training_returns_saved_model (reference_env RoundFloor)
                         sample_mgc 1%positive 2%positive "../../model"
                         sample_world))).
  vm_compute. reflexivity.
Defined.

Lemma data_process_works_on_copy_witness :
  exists c w0 normalized w1,
    w_heap sample_world !! c = None /\
    w_heap w0 !! c = w_heap sample_world !! 2%positive /\
    (forall l, l <> c -> w_heap w0 !! l = w_heap sample_world !! l) /\
    normalize_dataframe (reference_env RoundFloor) c "genre" w0
    = (Return normalized, w1) /\
    factorize_lebel (reference_env RoundFloor) normalized "genre" w1
    = (Return 4%positive,
       final (data_process (reference_env RoundFloor) sample_mgc 2%positive
                sample_world)).
Proof.
  apply (proj2 (data_process_works_on_copy (reference_env RoundFloor)
                  sample_mgc 2%positive sample_world)).
  vm_compute. reflexivity.
Defined.

Lemma run_data_flow_witness :
  exists clf train_data test_data train_label test_label model accuracy,
    (exists w0 w1,
       classifier (reference_env RoundFloor) "../../config/master_config.ini" w0
       = (Return clf, w1)) /\
    (exists table label rate shuffled directory w0 w1,
       dp_make_dataset (reference_env RoundFloor) table label rate shuffled
         directory w0
       = (Return (train_data, test_data, train_label, test_label), w1)) /\
    (exists w0 w1,
       clf_training (reference_env RoundFloor) clf train_data train_label w0
       = (Return model, w1)) /\
    (exists w0,
       clf_test (reference_env RoundFloor) clf model test_data test_label w0
       = (Return accuracy,
          final (run (reference_env RoundFloor) true true sample_world))).
Proof.
  apply (run_data_flow (reference_env RoundFloor) true true sample_world).
  vm_compute. reflexivity.
Defined.

End StagesExamples.
